(** * WaveSim screenshot capture utility: a shallow embedding

    The development follows [utils/screenshot_capture.py].  The script is
    sequential orchestration of path construction, one blocking call to the
    external capture tool and text formatting, so the embedding is a state
    and exception monad over a [world] that holds everything the script can
    observe or change: the filesystem paths, the clock, the operator sitting
    at the terminal, the capture tool, and the text written to the terminal.

    Two operations of the host can refuse outside every [try] of the script:
    [os.makedirs], when something that is no directory has the name or the
    project root takes no new entry, and [print], when the terminal cannot
    encode the text.  The functions of the script are therefore written
    once, in [Script], over these two operations.  At top level they are
    taken with the operations of a host that cooperates; in [Host] they are
    taken with the operations that refuse as the standard library does.
    The two agree on every host that cooperates ([host_run_cooperative]). *)

From Stdlib Require Import String Ascii List Bool Arith Lia ZArith NArith.
From Stdlib Require Import DecimalString Sorting Permutation.
Import ListNotations.
Open Scope string_scope.

(** ** Python strings *)

Module PyStr.

Definition nl : string := String "010" "".

Definition chr (n : nat) : string := String (ascii_of_nat n) "".

(** Character classes on the ASCII alphabet.  File names are byte strings;
    the case mappings of [str.lower] and [str.title] are modelled on the
    letters A-Z and a-z and leave every other byte alone.  For [str.lower]
    followed by the test for a final [.png] this is what Python computes on
    every name; for [str.title] it is what Python computes on the names
    that are ASCII ([is_ascii] below), and the properties of the alternative
    text are stated for those. *)
Definition is_upper (c : ascii) : bool :=
  let n := nat_of_ascii c in (65 <=? n)%nat && (n <=? 90)%nat.

Definition is_lower (c : ascii) : bool :=
  let n := nat_of_ascii c in (97 <=? n)%nat && (n <=? 122)%nat.

Definition is_cased (c : ascii) : bool := is_upper c || is_lower c.

Definition lower_char (c : ascii) : ascii :=
  if is_upper c then ascii_of_nat (nat_of_ascii c + 32) else c.

Definition upper_char (c : ascii) : ascii :=
  if is_lower c then ascii_of_nat (nat_of_ascii c - 32) else c.

(** [s.lower()] *)
Fixpoint lower (s : string) : string :=
  match s with
  | "" => ""
  | String c r => String (lower_char c) (lower r)
  end.

(** [s.title()]: a letter that follows a letter is lowercased, any other
    letter is uppercased. *)
Fixpoint title_from (previous_is_cased : bool) (s : string) : string :=
  match s with
  | "" => ""
  | String c r =>
      String (if previous_is_cased then lower_char c else upper_char c)
             (title_from (is_cased c) r)
  end.

Definition title (s : string) : string := title_from false s.

(** [s.startswith(p)] *)
Fixpoint startswith (s p : string) : bool :=
  match p, s with
  | "", _ => true
  | String a p', String b s' => Ascii.eqb a b && startswith s' p'
  | String _ _, "" => false
  end.

(** [s.endswith(suffix)] *)
Fixpoint endswith (s suffix : string) : bool :=
  (s =? suffix) ||
  match s with
  | "" => false
  | String _ r => endswith r suffix
  end.

(** [s.replace(old, new)] for a non-empty [old]: occurrences are found from
    the left and do not overlap.  [skip] counts the characters of a matched
    occurrence that are still to be passed over. *)
Fixpoint replace_from (old new : string) (skip : nat) (s : string) : string :=
  match s with
  | "" => ""
  | String c r =>
      match skip with
      | S k => replace_from old new k r
      | O =>
          if startswith s old
          then new ++ replace_from old new (String.length old - 1) r
          else String c (replace_from old new 0 r)
      end
  end.

Definition replace (s old new : string) : string := replace_from old new 0 s.

(** [s[:-n]] for [n > 0] *)
Definition drop_last (n : nat) (s : string) : string :=
  substring 0 (String.length s - n) s.

(** [sep * n] *)
Fixpoint repeat_str (sep : string) (n : nat) : string :=
  match n with
  | O => ""
  | S k => sep ++ repeat_str sep k
  end.

(** [str(n)] for a non-negative integer *)
Definition str_of_nat (n : nat) : string :=
  NilEmpty.string_of_uint (Nat.to_uint n).

(** The last [width] decimal digits of [n], zero padded: what [strftime]
    prints for a numeric field of that width. *)
Fixpoint zfill (width : nat) (n : N) : string :=
  match width with
  | O => ""
  | S k => zfill k (n / 10) ++ String (ascii_of_N (48 + n mod 10)) ""
  end.

Definition is_digit (c : ascii) : bool :=
  let n := nat_of_ascii c in (48 <=? n)%nat && (n <=? 57)%nat.

Fixpoint all_chars (p : ascii -> bool) (s : string) : bool :=
  match s with
  | "" => true
  | String c r => p c && all_chars p r
  end.

Definition slash : ascii := "/"%char.

Definition slash_free (s : string) : bool :=
  all_chars (fun c => negb (Ascii.eqb c slash)) s.

(** [s.isascii()]: every character has a code below 128.  On such strings
    the case mappings above are those of Python. *)
Definition is_ascii (s : string) : bool :=
  all_chars (fun c => (nat_of_ascii c <? 128)%nat) s.

(** [sorted(l)] on strings: Python compares strings character by character
    by code, which is [String.leb]. *)
Fixpoint insert_sorted (x : string) (l : list string) : list string :=
  match l with
  | [] => [x]
  | y :: r => if String.leb x y then x :: l else y :: insert_sorted x r
  end.

Fixpoint sort (l : list string) : list string :=
  match l with
  | [] => []
  | x :: r => insert_sorted x (sort r)
  end.

End PyStr.

(** ** [os.path] on POSIX *)

Module PosixPath.
Import PyStr.

(** [rsplit p] is [Some (h, t)] when [p = h ++ "/" ++ t] with no slash in
    [t] (the split at the last slash, [p.rfind('/')]), and [None] when [p]
    holds no slash. *)
Fixpoint rsplit (p : string) : option (string * string) :=
  match p with
  | "" => None
  | String c r =>
      match rsplit r with
      | Some (h, t) => Some (String c h, t)
      | None => if Ascii.eqb c slash then Some ("", r) else None
      end
  end.

(** [head.rstrip('/')] *)
Fixpoint rstrip_slash (s : string) : string :=
  match s with
  | "" => ""
  | String c r =>
      match rstrip_slash r with
      | "" => if Ascii.eqb c slash then "" else String c ""
      | r' => String c r'
      end
  end.

(** [os.path.basename] *)
Definition basename (p : string) : string :=
  match rsplit p with
  | Some (_, t) => t
  | None => p
  end.

(** [os.path.dirname]: the head up to and including the last slash, with
    its trailing slashes stripped unless it is made of slashes only. *)
Definition dirname (p : string) : string :=
  match rsplit p with
  | Some (h, _) =>
      let head := h ++ "/" in
      if all_chars (fun c => Ascii.eqb c slash) head then head
      else rstrip_slash head
  | None => ""
  end.

(** [os.path.join(a, b)] *)
Definition join (a b : string) : string :=
  if startswith b "/" then b
  else if (a =? "") || endswith a "/" then a ++ b
  else a ++ "/" ++ b.

End PosixPath.

(** ** The world the script runs in *)

(** The exception classes that can reach the script, and [issubclass]. *)
Inductive exn_class : Set :=
| KeyboardInterrupt
| EOFError
| OSError
| FileNotFoundError
| FileExistsError
| PermissionError
| CalledProcessError
| UnicodeEncodeError.

Definition exn_class_eqb (a b : exn_class) : bool :=
  match a, b with
  | KeyboardInterrupt, KeyboardInterrupt
  | EOFError, EOFError
  | OSError, OSError
  | FileNotFoundError, FileNotFoundError
  | FileExistsError, FileExistsError
  | PermissionError, PermissionError
  | CalledProcessError, CalledProcessError
  | UnicodeEncodeError, UnicodeEncodeError => true
  | _, _ => false
  end.

Definition issubclass (c parent : exn_class) : bool :=
  exn_class_eqb c parent ||
  match c, parent with
  | FileNotFoundError, OSError
  | FileExistsError, OSError
  | PermissionError, OSError => true
  | _, _ => false
  end.

(** An exception value: its class and what [str(e)] prints. *)
Record exn : Set := mkExn { exn_cls : exn_class; exn_str : string }.

(** A reading of [datetime.now()]. *)
Record datetime : Set := mkDatetime {
  year : N; month : N; day : N;
  hour : N; minute : N; second : N; microsecond : N
}.

(** The ranges the [datetime] class guarantees for its fields. *)
Definition valid_datetime (d : datetime) : Prop :=
  (1 <= year d <= 9999 /\ 1 <= month d <= 12 /\ 1 <= day d <= 31 /\
   hour d < 24 /\ minute d < 60 /\ second d < 60 /\ microsecond d < 1000000)%N.

(** What the operator does at an [input()] prompt. *)
Inductive operator_action : Set :=
| Enter (line : string)
| CtrlC.

(** How one [subprocess.run] of the capture tool ends: the tool exits with a
    status, and the target file is there or not when it has returned; or the
    call itself raises (the binary cannot be started, the operator interrupts
    the wait). *)
Inductive run_outcome : Set :=
| Completed (returncode : Z) (file_present : bool)
| Failed (e : exn).

Record world : Type := mkWorld {
  script_path : string;                 (* os.path.abspath(__file__) *)
  paths : list string;                  (* the paths that exist, in listing order *)
  clock : nat -> datetime;              (* successive readings of datetime.now() *)
  ticks : nat;                          (* readings taken so far *)
  capture_tool : nat -> run_outcome;    (* how the n-th run of the tool ends *)
  launched : list (list string);        (* argv of every subprocess.run so far *)
  stdin : list operator_action;         (* the operator, prompt after prompt *)
  stdout : list string;                 (* the text written so far *)
  slept : nat;                          (* seconds spent in time.sleep *)
  files : list string;                  (* the paths that are no directories *)
  read_only : bool;                     (* the project root takes no new entry *)
  ascii_terminal : bool                 (* sys.stdout encodes ASCII only *)
}.

Definition set_paths (f : list string -> list string) (w : world) : world :=
  mkWorld (script_path w) (f (paths w)) (clock w) (ticks w) (capture_tool w)
          (launched w) (stdin w) (stdout w) (slept w)
          (files w) (read_only w) (ascii_terminal w).

Definition set_ticks (n : nat) (w : world) : world :=
  mkWorld (script_path w) (paths w) (clock w) n (capture_tool w)
          (launched w) (stdin w) (stdout w) (slept w)
          (files w) (read_only w) (ascii_terminal w).

Definition set_launched (l : list (list string)) (w : world) : world :=
  mkWorld (script_path w) (paths w) (clock w) (ticks w) (capture_tool w)
          l (stdin w) (stdout w) (slept w)
          (files w) (read_only w) (ascii_terminal w).

Definition set_stdin (l : list operator_action) (w : world) : world :=
  mkWorld (script_path w) (paths w) (clock w) (ticks w) (capture_tool w)
          (launched w) l (stdout w) (slept w)
          (files w) (read_only w) (ascii_terminal w).

Definition set_stdout (l : list string) (w : world) : world :=
  mkWorld (script_path w) (paths w) (clock w) (ticks w) (capture_tool w)
          (launched w) (stdin w) l (slept w)
          (files w) (read_only w) (ascii_terminal w).

Definition set_files (f : list string -> list string) (w : world) : world :=
  mkWorld (script_path w) (paths w) (clock w) (ticks w) (capture_tool w)
          (launched w) (stdin w) (stdout w) (slept w)
          (f (files w)) (read_only w) (ascii_terminal w).

Definition set_slept (n : nat) (w : world) : world :=
  mkWorld (script_path w) (paths w) (clock w) (ticks w) (capture_tool w)
          (launched w) (stdin w) (stdout w) n
          (files w) (read_only w) (ascii_terminal w).

(** ** The monad of the script: state over [world], with exceptions *)

Inductive result (A : Type) : Type :=
| Return (a : A)
| Raise (e : exn).
Arguments Return {A} a.
Arguments Raise {A} e.

Definition M (A : Type) : Type := world -> result A * world.

Definition ret {A} (a : A) : M A := fun w => (Return a, w).

Definition raise {A} (e : exn) : M A := fun w => (Raise e, w).

Definition bind {A B} (m : M A) (f : A -> M B) : M B :=
  fun w =>
    match m w with
    | (Return a, w') => f a w'
    | (Raise e, w') => (Raise e, w')
    end.

(** [try: body except C1: h1 except C2: h2]: the first clause whose class
    the exception is an instance of handles it; with none, it propagates. *)
Fixpoint find_handler {A} (clauses : list (exn_class * (exn -> M A))) (e : exn)
  : option (M A) :=
  match clauses with
  | [] => None
  | (c, h) :: rest =>
      if issubclass (exn_cls e) c then Some (h e) else find_handler rest e
  end.

Definition try_except {A} (body : M A) (clauses : list (exn_class * (exn -> M A)))
  : M A :=
  fun w =>
    match body w with
    | (Return a, w') => (Return a, w')
    | (Raise e, w') =>
        match find_handler clauses e with
        | Some h => h w'
        | None => (Raise e, w')
        end
    end.

Declare Scope py_scope.
Delimit Scope py_scope with py.
Notation "x <- m ;; k" := (bind m (fun x => k))
  (at level 100, m at next level, right associativity) : py_scope.
Notation "m ;; k" := (bind m (fun _ => k))
  (at level 100, right associativity) : py_scope.
Open Scope py_scope.

(** ** The operations of the standard library the script calls

    [print] and [makedirs] are here what they do on a host that cooperates:
    the terminal takes every text, and nothing stands in the way of the
    directory.  What they do on any host is in [Host], below. *)

Module Os.
Import PyStr PosixPath.

Definition mem (p : string) (l : list string) : bool :=
  existsb (String.eqb p) l.

(** A path comes into existence, after the ones already there. *)
Definition touch (p : string) (l : list string) : list string :=
  if mem p l then l else l ++ [p].

Definition remove (p : string) (l : list string) : list string :=
  filter (fun q => negb (q =? p)) l.

(** [p] without its prefix [pre], when it has it. *)
Fixpoint strip_prefix (pre p : string) : option string :=
  match pre, p with
  | "", _ => Some p
  | String a pre', String b p' =>
      if Ascii.eqb a b then strip_prefix pre' p' else None
  | String _ _, "" => None
  end.

(** The name under which [p] is an entry of the directory [d], if it is
    one. *)
Definition child_of (d p : string) : option string :=
  match strip_prefix (d ++ "/") p with
  | Some name =>
      if negb (name =? "") && slash_free name then Some name else None
  | None => None
  end.

Fixpoint children (d : string) (l : list string) : list string :=
  match l with
  | [] => []
  | p :: r =>
      match child_of d p with
      | Some name => name :: children d r
      | None => children d r
      end
  end.

(** [print(s)] on a terminal that can encode [s] *)
Definition print (s : string) : M unit :=
  fun w => (Return tt, set_stdout (stdout w ++ [s ++ nl]) w).

(** [input(prompt)]: the prompt is written, then the operator presses
    Enter, interrupts, or the input has ended. *)
Definition input (prompt : string) : M string :=
  fun w =>
    let w1 := set_stdout (stdout w ++ [prompt]) w in
    match stdin w with
    | [] => (Raise (mkExn EOFError "EOF when reading a line"), w1)
    | Enter line :: rest => (Return line, set_stdin rest w1)
    | CtrlC :: rest => (Raise (mkExn KeyboardInterrupt ""), set_stdin rest w1)
    end.

(** [time.sleep(n)] *)
Definition sleep (n : nat) : M unit :=
  fun w => (Return tt, set_slept (slept w + n) w).

(** [datetime.now()] *)
Definition now : M datetime :=
  fun w => (Return (clock w (ticks w)), set_ticks (S (ticks w)) w).

(** The world in which [p] is a directory: the path exists and is no
    file. *)
Definition with_directory (p : string) (w : world) : world :=
  set_files (remove p) (set_paths (touch p) w).

(** [os.makedirs(p, exist_ok=True)] below an existing parent, when nothing
    stands in its way: the directory is made when no path of that name
    exists and is left as it is otherwise. *)
Definition makedirs (p : string) : M unit :=
  fun w => (Return tt, with_directory p w).

(** [os.path.exists(p)] *)
Definition path_exists (p : string) : M bool :=
  fun w => (Return (mem p (paths w)), w).

(** [os.listdir(d)] *)
Definition listdir (d : string) : M (list string) :=
  fun w => (Return (children d (paths w)), w).

(** [subprocess.run(argv, capture_output=True, text=True)] of the capture
    tool, whose last argument is the file it is to write.  The call is
    recorded, then ends as the world says the tool does this time: the
    target is a file afterwards, or no path at all; the returned value
    stands for [result.returncode]. *)
Definition subprocess_run (argv : list string) : M Z :=
  fun w =>
    let w1 := set_launched (launched w ++ [argv]) w in
    match capture_tool w (length (launched w)) with
    | Completed returncode file_present =>
        let target := last argv "" in
        (Return returncode,
         if file_present
         then set_files (touch target) (set_paths (touch target) w1)
         else set_files (remove target) (set_paths (remove target) w1))
    | Failed e => (Raise e, w1)
    end.

End Os.

(** ** The script *)

Import PyStr PosixPath Os.

(** [get_project_root]: the parent of the directory the script lies in. *)
Definition get_project_root : M string :=
  fun w =>
    let script_dir := dirname (script_path w) in
    (Return (dirname script_dir), w).

(** [datetime.strftime("%Y%m%d_%H%M%S_%f")] *)
Definition strftime (d : datetime) : string :=
  zfill 4 (year d) ++ zfill 2 (month d) ++ zfill 2 (day d) ++ "_" ++
  zfill 2 (hour d) ++ zfill 2 (minute d) ++ zfill 2 (second d) ++ "_" ++
  zfill 6 (microsecond d).

(** [description or 'WaveSim'] *)
Definition description_or (description : option string) (default : string)
  : string :=
  match description with
  | Some d => if d =? "" then default else d
  | None => default
  end.

(** A capture record of the guided sequence:
    [(prefix, filepath, description)]. *)
Definition capture_record : Set := (string * string * string)%type.

Definition sequence : list (string * string) :=
  [ ("initial", "Initial state: Clean interface with wave simulation ready");
    ("wave_sources", "Wave sources: Show multiple wave sources creating interference patterns");
    ("wave_propagation", "Wave propagation: Capture waves spreading across the simulation");
    ("interference", "Interference patterns: Show complex wave interactions and interference");
    ("wall_interaction", "Wall interactions: Demonstrate wave reflection and barriers");
    ("controls_panel", "Controls panel: Show the UI with wave parameters and tools") ].

(** The test [file.lower().endswith('.png')] of the listing. *)
Definition is_png (file : string) : bool := endswith (lower file) ".png".

(** The alternative text of an embedded image, from its file name. *)
Definition name_part (filename : string) : string :=
  title (replace (replace filename ".png" "") "_" " ").

Definition alt_text (filename : string) : string :=
  "Wave Simulation - " ++ name_part filename.

(** One step of [markdown += f"![{alt_text}](WaveSimScreenshots/{filename})\n\n"] *)
Definition embed_line (filename : string) : string :=
  "![" ++ alt_text filename ++ "](WaveSimScreenshots/" ++ filename ++ ")"
  ++ nl ++ nl.

Definition build_markdown (screenshot_files : list string) : string :=
  fold_left (fun markdown filename => markdown ++ embed_line filename)
            screenshot_files ("## Screenshots" ++ nl ++ nl).

Definition usage : list string :=
  [ "WaveSim Screenshot Capture Utility";
    "Usage:";
    "  python3 screenshot_capture.py           # Take a single screenshot";
    "  python3 screenshot_capture.py --sequence # Guided screenshot sequence";
    "  python3 screenshot_capture.py --update-readme # Generate README markdown";
    "  python3 screenshot_capture.py --help    # Show this help" ].

(** The exit status of the interpreter after [main()] at top level: zero when
    it returns, and the status of an uncaught exception otherwise (the
    interpreter prints the traceback; an uncaught [KeyboardInterrupt] ends
    the process as the interrupt signal does). *)
Definition exit_status {A} (r : result A) : Z :=
  match r with
  | Return _ => 0
  | Raise e =>
      match exn_cls e with
      | KeyboardInterrupt => 130
      | _ => 1
      end
  end.

(** The functions of the script that act on the world, over the two
    operations of the host that can refuse. *)
Module Script.
Section Operations.

Variable makedirs : string -> M unit.
Variable print : string -> M unit.

(** [create_screenshots_directory] *)
Definition create_screenshots_directory : M string :=
  project_root <- get_project_root;;
  let screenshots_dir := join project_root "WaveSimScreenshots" in
  makedirs screenshots_dir;;
  ret screenshots_dir.

(** [take_screenshot(filename_prefix, description)] *)
Definition take_screenshot (filename_prefix : string)
    (description : option string) : M (option string) :=
  screenshots_dir <- create_screenshots_directory;;
  d <- now;;
  let timestamp := drop_last 3 (strftime d) in
  let filename := filename_prefix ++ "_" ++ timestamp ++ ".png" in
  let filepath := join screenshots_dir filename in
  print (nl ++ "📸 Taking screenshot: " ++ description_or description "WaveSim");;
  print "   Click and drag to select the area to capture, or press Space for fullscreen";;
  try_except
    (returncode <- subprocess_run ["screencapture"; "-i"; "-x"; filepath];;
     present <- path_exists filepath;;
     if (returncode =? 0)%Z && present
     then print ("✅ Screenshot saved: " ++ filename);; ret (Some filepath)
     else print "❌ Screenshot failed or cancelled";; ret None)
    [ (CalledProcessError,
       fun e => print ("❌ Screenshot failed: " ++ exn_str e);; ret None);
      (KeyboardInterrupt,
       fun _ => print (nl ++ "❌ Screenshot cancelled by user");; ret None) ].

(** [take_screenshot()] with its default arguments *)
Definition take_screenshot_default : M (option string) :=
  take_screenshot "wave_sim" None.

(** One round of [for i, (prefix, description) in enumerate(sequence, 1)],
    with [total] for [len(sequence)] and [screenshots] for the list built so
    far; the round returns the list as it leaves it. *)
Definition capture_step (total i : nat) (item : string * string)
    (screenshots : list capture_record) : M (list capture_record) :=
  let '(prefix, description) := item in
  print (nl ++ "📷 Screenshot " ++ str_of_nat i ++ "/" ++ str_of_nat total
            ++ ": " ++ description);;
  _ <- input "   Press Enter when ready to capture...";;
  filepath <- take_screenshot prefix (Some description);;
  screenshots' <-
    match filepath with
    | Some p =>
        if p =? ""
        then print "   Skipping this screenshot...";; ret screenshots
        else ret (screenshots ++ [(prefix, p, description)])%list
    | None => print "   Skipping this screenshot...";; ret screenshots
    end;;
  (if (i <? total)%nat
   then print "   Prepare for next screenshot...";; sleep 1
   else ret tt);;
  ret screenshots'.

(** The rounds over [items], the first of them numbered [i]. *)
Fixpoint sequence_loop (total i : nat) (items : list (string * string))
    (screenshots : list capture_record) : M (list capture_record) :=
  match items with
  | [] => ret screenshots
  | item :: rest =>
      screenshots' <- capture_step total i item screenshots;;
      sequence_loop total (S i) rest screenshots'
  end.

(** The lines of the final summary, one per record. *)
Fixpoint print_captured (screenshots : list capture_record) : M unit :=
  match screenshots with
  | [] => ret tt
  | (prefix, filepath, description) :: rest =>
      let filename := basename filepath in
      print ("  • " ++ filename ++ " - " ++ description);;
      print_captured rest
  end.

(** [guided_screenshot_sequence] *)
Definition guided_screenshot_sequence : M (list capture_record) :=
  print "🎬 WaveSim Screenshot Sequence";;
  print (repeat_str "=" 50);;
  print "This will guide you through capturing screenshots showing different wave simulation features.";;
  print "Make sure WaveSim is running and visible on your screen.";;
  print "";;
  screenshots <- sequence_loop (length sequence) 1 sequence [];;
  print (nl ++ "🎉 Screenshot sequence complete!");;
  screenshots_dir <- create_screenshots_directory;;
  print ("📁 Screenshots saved to: " ++ screenshots_dir);;
  (match screenshots with
   | [] => ret tt
   | _ :: _ =>
       print (nl ++ "📋 Captured screenshots:");;
       print_captured screenshots
   end);;
  ret screenshots.

(** [update_readme_with_screenshots] *)
Definition update_readme_with_screenshots : M unit :=
  screenshots_dir <- create_screenshots_directory;;
  there <- path_exists screenshots_dir;;
  listed <- (if there
             then entries <- listdir screenshots_dir;; ret (filter is_png entries)
             else ret []);;
  let screenshot_files := sort listed in
  match screenshot_files with
  | [] => print "❌ No screenshots found in WaveSimScreenshots directory"
  | _ :: _ =>
      print (nl ++ "📝 Generating README markdown for "
                ++ str_of_nat (length screenshot_files) ++ " screenshots");;
      print (repeat_str "=" 60);;
      print (build_markdown screenshot_files);;
      print (repeat_str "=" 60);;
      print "✅ Copy this markdown and paste it into your README.md file"
  end.

Fixpoint print_all (lines : list string) : M unit :=
  match lines with
  | [] => ret tt
  | l :: rest => print l;; print_all rest
  end.

(** [main], on [sys.argv] *)
Definition main (argv : list string) : M unit :=
  match argv with
  | _ :: arg :: _ =>
      if arg =? "--sequence" then guided_screenshot_sequence;; ret tt
      else if arg =? "--update-readme" then update_readme_with_screenshots
      else if arg =? "--help" then print_all usage
      else print ("Unknown option: " ++ arg);;
           print "Use --help for usage information"
  | _ => take_screenshot_default;; ret tt
  end.

Definition run_script (argv : list string) (w : world) : Z * world :=
  let (r, w') := main argv w in (exit_status r, w').

End Operations.
End Script.

(** ** The script on a host that cooperates

    Nothing but a directory stands at the path of the output directory, the
    project root takes a new entry, and the terminal takes every text:
    [os.makedirs] and [print] return. *)

Definition create_screenshots_directory : M string :=
  Script.create_screenshots_directory makedirs.

Definition take_screenshot : string -> option string -> M (option string) :=
  Script.take_screenshot makedirs print.

Definition take_screenshot_default : M (option string) :=
  Script.take_screenshot_default makedirs print.

Definition capture_step
  : nat -> nat -> string * string -> list capture_record
    -> M (list capture_record) :=
  Script.capture_step makedirs print.

Definition sequence_loop
  : nat -> nat -> list (string * string) -> list capture_record
    -> M (list capture_record) :=
  Script.sequence_loop makedirs print.

Definition print_captured : list capture_record -> M unit :=
  Script.print_captured print.

Definition guided_screenshot_sequence : M (list capture_record) :=
  Script.guided_screenshot_sequence makedirs print.

Definition update_readme_with_screenshots : M unit :=
  Script.update_readme_with_screenshots makedirs print.

Definition print_all : list string -> M unit := Script.print_all print.

Definition main : list string -> M unit := Script.main makedirs print.

Definition run_script : list string -> world -> Z * world :=
  Script.run_script makedirs print.

(** These names stand for the functions of [Script] at the two operations:
    when two terms are compared, they are the first to be unfolded. *)
Strategy expand [create_screenshots_directory take_screenshot
  take_screenshot_default capture_step sequence_loop print_captured
  guided_screenshot_sequence update_readme_with_screenshots print_all main
  run_script].

(** ** The script on a host that may refuse *)

Module Host.

Definition file_exists (p : string) : exn :=
  mkExn FileExistsError ("[Errno 17] File exists: '" ++ p ++ "'").

Definition permission_denied (p : string) : exn :=
  mkExn PermissionError ("[Errno 13] Permission denied: '" ++ p ++ "'").

Definition cannot_encode : exn :=
  mkExn UnicodeEncodeError "'ascii' codec can't encode characters".

(** [os.makedirs(p, exist_ok=True)] below an existing parent.  [mkdir]
    refuses a name that is taken, and [makedirs] passes that over only when
    the name is taken by a directory; it refuses a new name when the parent
    takes no new entry. *)
Definition makedirs (p : string) : M unit :=
  fun w =>
    if mem p (paths w)
    then
      if mem p (files w)
      then (Raise (file_exists p), w)
      else (Return tt, w)
    else
      if read_only w
      then (Raise (permission_denied p), w)
      else (Return tt, with_directory p w).

(** [print(s)]: a terminal that encodes ASCII only refuses any other
    character, before anything of [s] is written. *)
Definition print (s : string) : M unit :=
  fun w =>
    if ascii_terminal w && negb (is_ascii s)
    then (Raise cannot_encode, w)
    else (Return tt, set_stdout (stdout w ++ [s ++ nl]) w).

Definition create_screenshots_directory : M string :=
  Script.create_screenshots_directory makedirs.

Definition take_screenshot : string -> option string -> M (option string) :=
  Script.take_screenshot makedirs print.

Definition guided_screenshot_sequence : M (list capture_record) :=
  Script.guided_screenshot_sequence makedirs print.

Definition update_readme_with_screenshots : M unit :=
  Script.update_readme_with_screenshots makedirs print.

Definition main : list string -> M unit := Script.main makedirs print.

Definition run_script : list string -> world -> Z * world :=
  Script.run_script makedirs print.

End Host.

Strategy expand [Host.create_screenshots_directory Host.take_screenshot
  Host.guided_screenshot_sequence Host.update_readme_with_screenshots
  Host.main Host.run_script].

(** ** Vocabulary of the properties *)

(** The output directory of a world: what [create_screenshots_directory]
    computes from the location of the script. *)
Definition screenshots_dir (w : world) : string :=
  join (dirname (dirname (script_path w))) "WaveSimScreenshots".

(** The [YYYYMMDD_HHMMSS_mmm] rendering of a clock reading. *)
Definition stamp (d : datetime) : string :=
  zfill 4 (year d) ++ zfill 2 (month d) ++ zfill 2 (day d) ++ "_" ++
  zfill 2 (hour d) ++ zfill 2 (minute d) ++ zfill 2 (second d) ++ "_" ++
  zfill 3 (microsecond d / 1000).

(** Eight digits, an underscore, six digits, an underscore, three digits. *)
Definition stamp_shape (s : string) : bool :=
  (String.length s =? 19)%nat &&
  all_chars is_digit (substring 0 8 s) && (substring 8 1 s =? "_") &&
  all_chars is_digit (substring 9 6 s) && (substring 15 1 s =? "_") &&
  all_chars is_digit (substring 16 3 s).

(** The file name and the path of a capture with a given prefix taken at a
    given clock reading. *)
Definition capture_name (prefix : string) (d : datetime) : string :=
  prefix ++ "_" ++ drop_last 3 (strftime d) ++ ".png".

Definition capture_argv (filepath : string) : list string :=
  ["screencapture"; "-i"; "-x"; filepath].

(** The tool ran to its end with status zero and the file is there. *)
Definition succeeded (o : run_outcome) : bool :=
  match o with
  | Completed returncode file_present => (returncode =? 0)%Z && file_present
  | Failed _ => false
  end.

(** The outcomes [take_screenshot] turns into a result: the tool ran to its
    end, or the call raised an exception of a class one of its two [except]
    clauses names. *)
Definition handled (o : run_outcome) : bool :=
  match o with
  | Completed _ _ => true
  | Failed e =>
      issubclass (exn_cls e) CalledProcessError ||
      issubclass (exn_cls e) KeyboardInterrupt
  end.

(** The [count] runs of the tool from run number [n] on all end in a handled
    outcome. *)
Fixpoint handled_from (tool : nat -> run_outcome) (n count : nat) : bool :=
  match count with
  | O => true
  | S c => handled (tool n) && handled_from tool (S n) c
  end.

Definition tool_handled (count : nat) (w : world) : bool :=
  handled_from (capture_tool w) (length (launched w)) count.

(** The operator presses Enter at the next [count] prompts. *)
Fixpoint all_enter (count : nat) (actions : list operator_action) : bool :=
  match count with
  | O => true
  | S c =>
      match actions with
      | Enter _ :: rest => all_enter c rest
      | _ => false
      end
  end.

Definition answered (count : nat) (w : world) : bool :=
  all_enter count (stdin w).

(** The world when the capture tool has been called: the directory is made,
    the clock is read, the two lines of instructions are written and the call
    is on record. *)
Definition launched_world (filename_prefix : string)
    (description : option string) (w : world) (fs regular : list string)
    (said : list string) : world :=
  let filepath :=
    join (screenshots_dir w) (capture_name filename_prefix (clock w (ticks w)))
  in
  mkWorld (script_path w) fs (clock w) (S (ticks w)) (capture_tool w)
    (launched w ++ [capture_argv filepath]) (stdin w)
    (stdout w
     ++ [ (nl ++ "📸 Taking screenshot: " ++ description_or description "WaveSim") ++ nl;
          "   Click and drag to select the area to capture, or press Space for fullscreen" ++ nl ]
     ++ said)
    (slept w) regular (read_only w) (ascii_terminal w).

(** What a run of [items] is to launch and to return, when the first of them
    takes clock reading [t] and is run number [n] of the tool. *)
Fixpoint expected_launches (dir : string) (clk : nat -> datetime) (t : nat)
    (items : list (string * string)) : list (list string) :=
  match items with
  | [] => []
  | (prefix, _) :: rest =>
      capture_argv (join dir (capture_name prefix (clk t)))
      :: expected_launches dir clk (S t) rest
  end.

Fixpoint expected_records (dir : string) (clk : nat -> datetime)
    (tool : nat -> run_outcome) (t n : nat) (items : list (string * string))
  : list capture_record :=
  match items with
  | [] => []
  | (prefix, description) :: rest =>
      (if succeeded (tool n)
       then [(prefix, join dir (capture_name prefix (clk t)), description)]
       else [])
      ++ expected_records dir clk tool (S t) (S n) rest
  end%list.

(** How the world has moved on when the rounds over [items] are done: the
    script, the clock and the tool are the same, one clock reading and one
    prompt were used and one call of the tool was made per item, in the
    order of the items, and the terminal only gained text. *)
Definition after_rounds (items : list (string * string)) (w w' : world)
  : Prop :=
  script_path w' = script_path w /\
  clock w' = clock w /\
  capture_tool w' = capture_tool w /\
  ticks w' = ticks w + length items /\
  launched w'
  = (launched w
     ++ expected_launches (screenshots_dir w) (clock w) (ticks w) items)%list /\
  stdin w' = skipn (length items) (stdin w) /\
  exists said, stdout w' = (stdout w ++ said)%list.

(** The two lines that close the guided sequence. *)
Definition closing_lines (dir : string) : list string :=
  [ (nl ++ "🎉 Screenshot sequence complete!") ++ nl;
    ("📁 Screenshots saved to: " ++ dir) ++ nl ].

(** The final summary of the guided sequence, as written to the terminal. *)
Definition summary_lines (screenshots : list capture_record) : list string :=
  match screenshots with
  | [] => []
  | _ :: _ =>
      (nl ++ "📋 Captured screenshots:" ++ nl)
      :: map (fun r : capture_record =>
                let '(_, filepath, description) := r in
                "  • " ++ basename filepath ++ " - " ++ description ++ nl)
             screenshots
  end.

(** The entries of the output directory that the listing takes for PNG
    files. *)
Definition png_files (w : world) : list string :=
  filter is_png (children (screenshots_dir w) (paths w)).

Definition sorted_strings : list string -> Prop :=
  Sorted (fun a b => String.leb a b = true).

(** What [update_readme_with_screenshots] writes: the notice when the
    listing is empty; otherwise a headline with the number of files, a rule,
    the Markdown, a rule again and a closing line.  The Markdown is the
    heading followed by one image line per file of the listing, in its
    order. *)
Definition none_found_notice : string :=
  "❌ No screenshots found in WaveSimScreenshots directory".

Definition markdown_of (listing : list string) : string :=
  "## Screenshots" ++ nl ++ nl ++ String.concat "" (map embed_line listing).

Definition generating_line (count : nat) : string :=
  (nl ++ "📝 Generating README markdown for "
      ++ str_of_nat count ++ " screenshots") ++ nl.

Definition rule_line : string := repeat_str "=" 60 ++ nl.

Definition copy_line : string :=
  "✅ Copy this markdown and paste it into your README.md file" ++ nl.

Definition readme_output (listing : list string) : list string :=
  match listing with
  | [] => [none_found_notice ++ nl]
  | _ :: _ =>
      [ generating_line (length listing); rule_line;
        markdown_of listing ++ nl; rule_line; copy_line ]
  end.




(** [os.makedirs] on the output directory returns: a directory has the
    name already, or no path has it and the project root takes a new
    entry. *)
Definition dir_available (w : world) : bool :=
  if mem (screenshots_dir w) (paths w)
  then negb (mem (screenshots_dir w) (files w))
  else negb (read_only w).

(** The path is a directory. *)
Definition is_dir (p : string) (w : world) : bool :=
  mem p (paths w) && negb (mem p (files w)).




(** The host cooperates: [os.makedirs] returns on the output directory and
    the terminal takes every character. *)
Definition cooperative (w : world) : bool :=
  dir_available w && negb (ascii_terminal w).

(** Two computations do the same from every world in which the host
    cooperates, and leave a world in which it does. *)
Definition agree {A} (m1 m2 : M A) : Prop :=
  forall w, cooperative w = true ->
    m1 w = m2 w /\ cooperative (snd (m2 w)) = true.

(** ** Sample worlds *)

Definition sample_script : string :=
  "/Users/dev/WaveSim/utils/screenshot_capture.py".

Definition sample_dir : string := "/Users/dev/WaveSim/WaveSimScreenshots".

Definition sample_time : datetime := mkDatetime 2024 3 9 14 5 7 123456.

(** A fresh run of the script at [sample_script]: nothing launched, read or
    written yet. *)
Definition fresh_world (existing : list string) (tool : nat -> run_outcome)
    (actions : list operator_action) : world :=
  mkWorld sample_script existing (fun _ => sample_time) 0 tool [] actions [] 0
          [] false false.

(** The tool writes the file and exits with status zero on its even runs,
    and exits with status one and no file on its odd runs. *)
Definition every_other_capture (n : nat) : run_outcome :=
  if Nat.even n then Completed 0 true else Completed 1 false.

(** The operator presses Enter at every prompt of the sequence. *)
Definition patient_world : world :=
  fresh_world [] every_other_capture (repeat (Enter "") 6).

(** The terminal input has ended before the first prompt (the script is run
    with its input redirected from an empty file). *)
Definition closed_input_world : world :=
  fresh_world [] every_other_capture [].

(** The operator presses Ctrl-C at the first prompt of the sequence. *)
Definition interrupted_prompt_world : world :=
  fresh_world [] every_other_capture [CtrlC].

(** The capture tool is not installed: starting it raises
    [FileNotFoundError]. *)
Definition tool_missing : exn :=
  mkExn FileNotFoundError
        "[Errno 2] No such file or directory: 'screencapture'".

Definition no_tool_world : world :=
  fresh_world [] (fun _ => Failed tool_missing) (repeat (Enter "") 6).

(** The operator presses Ctrl-C while the tool waits for a selection. *)
Definition interrupted_capture_world : world :=
  fresh_world [] (fun _ => Failed (mkExn KeyboardInterrupt "")) [].

(** An output directory with two captures, one of them with an uppercase
    extension, a file that is no image and a name with [.png] twice. *)
Definition stocked_world : world :=
  fresh_world
    [ sample_dir;
      (sample_dir ++ "/wave_sources_20240309_140507_123.png");
      (sample_dir ++ "/notes.txt");
      (sample_dir ++ "/SHOT.PNG");
      (sample_dir ++ "/demo.png.png");
      (sample_dir ++ "/initial_20240309_140501_001.png") ]
    every_other_capture [].

(** ** Vocabulary of the further properties *)

(** The seconds a run of [n] rounds numbered from [i] sleeps: one after each
    round whose number is below [total]. *)
Fixpoint pauses (total i n : nat) : nat :=
  match n with
  | O => 0
  | S n' => (if (i <? total)%nat then 1 else 0) + pauses total (S i) n'
  end.

(** What [input] raises at prompt number [k] (from zero) of the operator's
    actions, if it raises there. *)
Definition prompt_failure (k : nat) (actions : list operator_action)
  : option exn_class :=
  match nth_error actions k with
  | Some (Enter _) => None
  | Some CtrlC => Some KeyboardInterrupt
  | None => Some EOFError
  end.

(** The script lies in a directory directly below the root of the
    filesystem. *)
Definition root_level_world : world :=
  mkWorld "/utils/screenshot_capture.py" [] (fun _ => sample_time) 0
          every_other_capture [] [] [] 0 [] false false.

(** The operator answers two prompts of the sequence and interrupts the
    third. *)
Definition half_answered_world : world :=
  fresh_world [] every_other_capture [Enter ""; Enter ""; CtrlC].

(** The project root takes no new entry and the output directory is not
    there. *)
Definition locked_world : world :=
  mkWorld sample_script [] (fun _ => sample_time) 0 every_other_capture
          [] [] [] 0 [] true false.

(** A file, not a directory, has the name of the output directory. *)
Definition blocked_world : world :=
  mkWorld sample_script [sample_dir] (fun _ => sample_time) 0
          every_other_capture [] [] [] 0 [sample_dir] false false.


(** Reduce the projections of a world that is written out. *)
Ltac world_simpl :=
  cbn [script_path paths clock ticks capture_tool launched stdin stdout slept
       files read_only ascii_terminal fst snd app].

Ltac world_simpl_in H :=
  cbn [script_path paths clock ticks capture_tool launched stdin stdout slept
       files read_only ascii_terminal fst snd app] in H.

(** Put the functions of the script on the cooperating host back under
    their names, after one of them has been unfolded. *)
Ltac refold :=
  try change (Script.create_screenshots_directory makedirs)
    with create_screenshots_directory in *;
  try change (Script.take_screenshot makedirs print)
    with take_screenshot in *;
  try change (Script.take_screenshot_default makedirs print)
    with take_screenshot_default in *;
  try change (Script.capture_step makedirs print) with capture_step in *;
  try change (Script.sequence_loop makedirs print) with sequence_loop in *;
  try change (Script.print_captured print) with print_captured in *;
  try change (Script.guided_screenshot_sequence makedirs print)
    with guided_screenshot_sequence in *;
  try change (Script.update_readme_with_screenshots makedirs print)
    with update_readme_with_screenshots in *;
  try change (Script.print_all print) with print_all in *;
  try change (Script.main makedirs print) with main in *.

(** * Properties

    Where [Host] is not named, the functions are those of the script on a
    host that cooperates. *)

(** ** Strings and paths *)

Lemma append_nil_r (s : string) : s ++ "" = s.
Proof. induction s as [|c s IH]; simpl; [reflexivity | now rewrite IH]. Qed.

Lemma append_assoc (a b c : string) : (a ++ b) ++ c = a ++ (b ++ c).
Proof. induction a as [|x a IH]; simpl; [reflexivity | now rewrite IH]. Qed.

Lemma length_append (a b : string) :
  String.length (a ++ b) = String.length a + String.length b.
Proof. induction a as [|x a IH]; simpl; [reflexivity | now rewrite IH]. Qed.

Lemma append_eq_nil (a b : string) : a ++ b = "" -> a = "" /\ b = "".
Proof. destruct a; simpl; [now split | discriminate]. Qed.

Lemma substring_0_append (a b : string) :
  substring 0 (String.length a) (a ++ b) = a.
Proof. induction a as [|x a IH]; simpl; [now destruct b | now rewrite IH]. Qed.

Lemma drop_last_append (a b : string) :
  drop_last (String.length b) (a ++ b) = a.
Proof.
  unfold drop_last. rewrite length_append.
  replace (String.length a + String.length b - String.length b)
    with (String.length a) by lia.
  apply substring_0_append.
Qed.

Lemma all_chars_append p (a b : string) :
  all_chars p (a ++ b) = all_chars p a && all_chars p b.
Proof.
  induction a as [|x a IH]; simpl; [reflexivity|].
  now rewrite IH, andb_assoc.
Qed.

Lemma endswith_append (a b : string) : endswith (a ++ b) b = true.
Proof.
  induction a as [|x a IH]; simpl.
  - destruct b; simpl; [reflexivity|].
    now rewrite Ascii.eqb_refl, String.eqb_refl.
  - rewrite IH. apply orb_true_r.
Qed.

Lemma endswith_split (s suffix : string) :
  endswith s suffix = true -> exists a, s = a ++ suffix.
Proof.
  induction s as [|c s IH]; cbn [endswith]; intros H.
  - rewrite orb_false_r in H. apply String.eqb_eq in H. now exists "".
  - apply orb_true_iff in H. destruct H as [H|H].
    + apply String.eqb_eq in H. now exists "".
    + destruct (IH H) as [a ->]. now exists (String c a).
Qed.

(** The last character decides whether a string ends with a slash. *)
Lemma endswith_slash_last (a : string) (c : ascii) :
  endswith (a ++ String c "") "/" = Ascii.eqb c slash.
Proof.
  unfold slash. induction a as [|x a IH]; simpl.
  - rewrite orb_false_r. now destruct (Ascii.eqb c "/").
  - rewrite IH. destruct a; simpl; now destruct (Ascii.eqb x "/").
Qed.

Lemma rsplit_slash_free (t : string) :
  slash_free t = true -> rsplit t = None.
Proof.
  induction t as [|c t IH]; simpl; [reflexivity|].
  intros H. apply andb_true_iff in H. destruct H as [Hc Ht].
  rewrite (IH Ht). now destruct (Ascii.eqb c slash).
Qed.

Lemma rsplit_append (a t : string) :
  slash_free t = true -> rsplit (a ++ "/" ++ t) = Some (a, t).
Proof.
  intros Ht. induction a as [|c a IH]; simpl.
  - now rewrite (rsplit_slash_free t Ht).
  - simpl in IH. now rewrite IH.
Qed.

Lemma rstrip_slash_last (a : string) (c : ascii) :
  Ascii.eqb c slash = false ->
  rstrip_slash (a ++ String c "/") = a ++ String c "".
Proof.
  intros Hc. induction a as [|x a IH]; simpl.
  - now rewrite Hc.
  - rewrite IH. now destruct a.
Qed.

Lemma all_slashes_last (a : string) (c : ascii) (r : string) :
  Ascii.eqb c slash = false ->
  all_chars (fun x => Ascii.eqb x slash) (a ++ String c r) = false.
Proof.
  intros Hc. rewrite all_chars_append. simpl. rewrite Hc.
  apply andb_false_r.
Qed.

(** A directory name that ends in a character other than a slash, joined
    with a plain file name, splits back into the two. *)
Lemma join_plain (a : string) (c : ascii) (name : string) :
  Ascii.eqb c slash = false -> slash_free name = true ->
  join (a ++ String c "") name = (a ++ String c "") ++ "/" ++ name.
Proof.
  intros Hc Hn. unfold join.
  assert (Hs : startswith name "/" = false).
  { destruct name as [|x name]; [reflexivity|].
    cbn [slash_free all_chars] in Hn.
    apply andb_true_iff in Hn. destruct Hn as [Hx _].
    cbn [startswith]. rewrite Ascii.eqb_sym. unfold slash in Hx.
    now destruct (Ascii.eqb x "/"). }
  rewrite Hs, endswith_slash_last, Hc.
  destruct (a ++ String c "") eqn:E; [destruct a; discriminate|].
  reflexivity.
Qed.

Lemma dirname_joined (a : string) (c : ascii) (name : string) :
  Ascii.eqb c slash = false -> slash_free name = true ->
  dirname ((a ++ String c "") ++ "/" ++ name) = a ++ String c "".
Proof.
  intros Hc Hn. unfold dirname. rewrite (rsplit_append _ _ Hn).
  rewrite append_assoc. simpl.
  rewrite (all_slashes_last a c "/" Hc).
  now apply rstrip_slash_last.
Qed.

Lemma basename_joined (a name : string) :
  slash_free name = true -> basename (a ++ "/" ++ name) = name.
Proof. intros Hn. unfold basename. now rewrite (rsplit_append _ _ Hn). Qed.

(** The output directory always ends in the letter [s] of its fixed name. *)
Lemma screenshots_dir_shape (w : world) :
  exists a, screenshots_dir w = a ++ String "s" "".
Proof.
  unfold screenshots_dir, join.
  set (root := dirname (dirname (script_path w))).
  change (startswith "WaveSimScreenshots" "/") with false. cbv iota.
  destruct ((root =? "") || endswith root "/").
  - exists (root ++ "WaveSimScreenshot"). now rewrite append_assoc.
  - exists (root ++ "/WaveSimScreenshot"). now rewrite append_assoc.
Qed.

(** ** The filesystem *)

Lemma mem_In (p : string) (l : list string) : mem p l = true <-> In p l.
Proof.
  unfold mem. rewrite existsb_exists. split.
  - intros [q [Hq E]]. apply String.eqb_eq in E. now subst.
  - intros H. exists p. split; [assumption | apply String.eqb_refl].
Qed.

Lemma mem_touch (p : string) (l : list string) : mem p (touch p l) = true.
Proof.
  unfold touch. destruct (mem p l) eqn:E; [assumption|].
  apply mem_In, in_or_app. right. now left.
Qed.

Lemma mem_remove (p : string) (l : list string) : mem p (remove p l) = false.
Proof.
  destruct (mem p (remove p l)) eqn:E; [|reflexivity].
  apply mem_In in E. unfold remove in E. apply filter_In in E.
  destruct E as [_ E]. now rewrite String.eqb_refl in E.
Qed.

Lemma touch_present (p : string) (l : list string) :
  mem p l = true -> touch p l = l.
Proof. unfold touch. now intros ->. Qed.

Lemma touch_idempotent (p : string) (l : list string) :
  touch p (touch p l) = touch p l.
Proof. apply touch_present, mem_touch. Qed.

Lemma strip_prefix_self (d r : string) : strip_prefix (d ++ r) d = None \/ r = "".
Proof.
  induction d as [|c d IH]; cbn [append strip_prefix].
  - destruct r; [now right | now left].
  - rewrite Ascii.eqb_refl. exact IH.
Qed.

(** A directory is not an entry of itself. *)
Lemma child_of_self (d : string) : child_of d d = None.
Proof.
  unfold child_of. destruct (strip_prefix_self d "/") as [-> | E];
    [reflexivity | discriminate].
Qed.

Lemma children_app (d : string) (l1 l2 : list string) :
  children d (l1 ++ l2) = (children d l1 ++ children d l2)%list.
Proof.
  induction l1 as [|p l1 IH]; cbn [children app]; [reflexivity|].
  destruct (child_of d p); cbn [app]; now rewrite IH.
Qed.

(** Making the directory does not change what it lists. *)
Lemma children_touch_dir (d : string) (l : list string) :
  children d (touch d l) = children d l.
Proof.
  unfold touch. destruct (mem d l); [reflexivity|].
  rewrite children_app. cbn [children].
  rewrite child_of_self. apply app_nil_r.
Qed.

(** ** [create_screenshots_directory] *)

Lemma create_screenshots_directory_run (w : world) :
  create_screenshots_directory w
  = (Return (screenshots_dir w), with_directory (screenshots_dir w) w).
Proof. reflexivity. Qed.

Lemma screenshots_dir_set_paths f (w : world) :
  screenshots_dir (set_paths f w) = screenshots_dir w.
Proof. reflexivity. Qed.

Lemma screenshots_dir_with_directory (p : string) (w : world) :
  screenshots_dir (with_directory p w) = screenshots_dir w.
Proof. reflexivity. Qed.

(** ** Timestamps *)

Lemma zfill_length (width : nat) (n : N) : String.length (zfill width n) = width.
Proof.
  revert n. induction width as [|k IH]; intros n; cbn [zfill]; [reflexivity|].
  rewrite length_append, IH. cbn [String.length]. lia.
Qed.

Lemma is_digit_ascii (n : N) : is_digit (ascii_of_N (48 + n mod 10)) = true.
Proof.
  assert (H : (n mod 10 < 10)%N) by (apply N.mod_lt; discriminate).
  remember (n mod 10)%N as r eqn:E. clear E n.
  do 10 (destruct r as [|r] using N.peano_ind; [reflexivity|]).
  lia.
Qed.

Lemma zfill_digits (width : nat) (n : N) :
  all_chars is_digit (zfill width n) = true.
Proof.
  revert n. induction width as [|k IH]; intros n; cbn [zfill]; [reflexivity|].
  rewrite all_chars_append, IH. cbn [all_chars andb].
  now rewrite is_digit_ascii.
Qed.

(** Cutting the last three characters of the rendered time leaves the
    milliseconds of the six-digit microsecond field. *)
Lemma drop_last_strftime (d : datetime) : drop_last 3 (strftime d) = stamp d.
Proof.
  unfold strftime, stamp.
  set (us := microsecond d).
  assert (E : zfill 6 us
              = zfill 3 (us / 1000)
                ++ (String (ascii_of_N (48 + (us / 10 / 10) mod 10)) ""
                    ++ String (ascii_of_N (48 + (us / 10) mod 10)) ""
                    ++ String (ascii_of_N (48 + us mod 10)) "")).
  { change (zfill 6 us) with
      (((zfill 3 (us / 10 / 10 / 10)
         ++ String (ascii_of_N (48 + (us / 10 / 10) mod 10)) "")
        ++ String (ascii_of_N (48 + (us / 10) mod 10)) "")
       ++ String (ascii_of_N (48 + us mod 10)) "").
    rewrite !N.Div0.div_div. change (10 * 10 * 10)%N with 1000%N.
    now rewrite !append_assoc. }
  rewrite E. clear E.
  set (tail := String (ascii_of_N (48 + (us / 10 / 10) mod 10)) ""
               ++ String (ascii_of_N (48 + (us / 10) mod 10)) ""
               ++ String (ascii_of_N (48 + us mod 10)) "").
  set (front := zfill 4 (year d) ++ zfill 2 (month d) ++ zfill 2 (day d)
                ++ "_" ++ zfill 2 (hour d) ++ zfill 2 (minute d)
                ++ zfill 2 (second d) ++ "_" ++ zfill 3 (us / 1000)).
  transitivity (drop_last (String.length tail) (front ++ tail));
    [|apply drop_last_append].
  change (String.length tail) with 3. f_equal.
Qed.

Lemma substring_0_length (a b : string) (n : nat) :
  n = String.length a -> substring 0 n (a ++ b) = a.
Proof. intros ->. apply substring_0_append. Qed.

Lemma substring_skip (a b : string) (n m : nat) :
  n = String.length a -> substring n m (a ++ b) = substring 0 m b.
Proof.
  intros ->. induction a as [|c a IH]; cbn [append String.length substring];
    [reflexivity | exact IH].
Qed.

Lemma stamp_has_shape (d : datetime) : stamp_shape (stamp d) = true.
Proof.
  unfold stamp, stamp_shape.
  set (date := zfill 4 (year d) ++ zfill 2 (month d) ++ zfill 2 (day d)).
  set (time := zfill 2 (hour d) ++ zfill 2 (minute d) ++ zfill 2 (second d)).
  set (ms := zfill 3 (microsecond d / 1000)).
  assert (Ldate : String.length date = 8)
    by (unfold date; now rewrite !length_append, !zfill_length).
  assert (Ltime : String.length time = 6)
    by (unfold time; now rewrite !length_append, !zfill_length).
  assert (Lms : String.length ms = 3) by apply zfill_length.
  assert (Ddate : all_chars is_digit date = true)
    by (unfold date; now rewrite !all_chars_append, !zfill_digits).
  assert (Dtime : all_chars is_digit time = true)
    by (unfold time; now rewrite !all_chars_append, !zfill_digits).
  assert (Dms : all_chars is_digit ms = true) by apply zfill_digits.
  assert (E : zfill 4 (year d) ++ zfill 2 (month d) ++ zfill 2 (day d) ++ "_"
              ++ zfill 2 (hour d) ++ zfill 2 (minute d) ++ zfill 2 (second d)
              ++ "_" ++ ms
              = date ++ "_" ++ time ++ "_" ++ ms).
  { unfold date, time. now rewrite !append_assoc. }
  rewrite E. clear E.
  assert (S1 : substring 0 8 (date ++ "_" ++ time ++ "_" ++ ms) = date)
    by now apply substring_0_length.
  assert (S2 : substring 8 1 (date ++ "_" ++ time ++ "_" ++ ms) = "_").
  { rewrite substring_skip by now symmetry. reflexivity. }
  assert (S3 : substring 9 6 (date ++ "_" ++ time ++ "_" ++ ms) = time).
  { rewrite <- (append_assoc date "_").
    rewrite substring_skip
      by (rewrite length_append, Ldate; reflexivity).
    now apply substring_0_length. }
  assert (S4 : substring 15 1 (date ++ "_" ++ time ++ "_" ++ ms) = "_").
  { rewrite <- (append_assoc date "_"), <- append_assoc.
    rewrite substring_skip
      by (rewrite !length_append, Ldate, Ltime; reflexivity).
    reflexivity. }
  assert (S5 : substring 16 3 (date ++ "_" ++ time ++ "_" ++ ms) = ms).
  { rewrite <- (append_assoc date "_"), <- append_assoc, <- append_assoc.
    rewrite substring_skip
      by (rewrite !length_append, Ldate, Ltime; reflexivity).
    rewrite <- (append_nil_r ms) at 1. now apply substring_0_length. }
  rewrite S1, S2, S3, S4, S5, Ddate, Dtime, Dms.
  rewrite !length_append, Ldate, Ltime, Lms. reflexivity.
Qed.

(** ** The monad, step by step *)

Lemma bind_run {A B} (m : M A) (k : A -> M B) (w w' : world) (a : A) :
  m w = (Return a, w') -> bind m k w = k a w'.
Proof. intros H. unfold bind. now rewrite H. Qed.

Lemma bind_raise {A B} (m : M A) (k : A -> M B) (w w' : world) (e : exn) :
  m w = (Raise e, w') -> bind m k w = (Raise e, w').
Proof. intros H. unfold bind. now rewrite H. Qed.

Lemma print_run (s : string) (w : world) :
  print s w = (Return tt, set_stdout (stdout w ++ [s ++ nl]) w).
Proof. reflexivity. Qed.

Lemma now_run (w : world) :
  now w = (Return (clock w (ticks w)), set_ticks (S (ticks w)) w).
Proof. reflexivity. Qed.

Lemma input_enter (prompt line : string) (rest : list operator_action)
    (w : world) :
  stdin w = Enter line :: rest ->
  input prompt w
  = (Return line, set_stdin rest (set_stdout (stdout w ++ [prompt]) w)).
Proof. intros H. unfold input. now rewrite H. Qed.

(** ** [take_screenshot] *)

(** What one call of [take_screenshot] does, outcome by outcome. *)
Lemma take_screenshot_run (filename_prefix : string)
    (description : option string) (w : world) :
  let dir := screenshots_dir w in
  let filename := capture_name filename_prefix (clock w (ticks w)) in
  let filepath := join dir filename in
  let after := launched_world filename_prefix description w in
  let fs := touch dir (paths w) in
  let regular := remove dir (files w) in
  take_screenshot filename_prefix description w =
  match capture_tool w (length (launched w)) with
  | Completed returncode file_present =>
      if file_present
      then
        if (returncode =? 0)%Z
        then (Return (Some filepath),
              after (touch filepath fs) (touch filepath regular)
                    [("✅ Screenshot saved: " ++ filename) ++ nl])
        else (Return None,
              after (touch filepath fs) (touch filepath regular)
                    ["❌ Screenshot failed or cancelled" ++ nl])
      else (Return None,
            after (remove filepath fs) (remove filepath regular)
                  ["❌ Screenshot failed or cancelled" ++ nl])
  | Failed e =>
      if issubclass (exn_cls e) CalledProcessError
      then (Return None,
            after fs regular [("❌ Screenshot failed: " ++ exn_str e) ++ nl])
      else if issubclass (exn_cls e) KeyboardInterrupt
      then (Return None,
            after fs regular [(nl ++ "❌ Screenshot cancelled by user") ++ nl])
      else (Raise e, after fs regular [])
  end.
Proof.
  cbv zeta.
  unfold take_screenshot, Script.take_screenshot. refold.
  erewrite bind_run by apply create_screenshots_directory_run.
  unfold with_directory, set_files, set_paths. world_simpl.
  erewrite bind_run by apply now_run. unfold set_ticks. world_simpl.
  erewrite bind_run by apply print_run. unfold set_stdout. world_simpl.
  erewrite bind_run by apply print_run. unfold set_stdout. world_simpl.
  unfold capture_name.
  set (filename := filename_prefix ++ "_"
                   ++ drop_last 3 (strftime (clock w (ticks w))) ++ ".png").
  set (filepath := join (screenshots_dir w) filename).
  unfold launched_world, capture_name. fold filename. fold filepath.
  unfold capture_argv.
  unfold try_except, bind at 1, subprocess_run, set_launched. world_simpl.
  destruct (capture_tool w (length (launched w))) as [rc present | e].
  - cbn [last]. destruct present; unfold set_files, set_paths; world_simpl;
      unfold bind at 1, path_exists at 1; world_simpl.
    + rewrite mem_touch, andb_true_r.
      destruct (rc =? 0)%Z;
        (erewrite bind_run by apply print_run); unfold ret, set_stdout;
        world_simpl; rewrite <- ?app_assoc; reflexivity.
    + rewrite mem_remove, andb_false_r.
      erewrite bind_run by apply print_run. unfold ret, set_stdout.
      world_simpl; rewrite <- ?app_assoc; reflexivity.
  - cbn [find_handler].
    destruct (issubclass (exn_cls e) CalledProcessError).
    + erewrite bind_run by apply print_run. unfold ret, set_stdout.
      world_simpl; rewrite <- ?app_assoc; reflexivity.
    + destruct (issubclass (exn_cls e) KeyboardInterrupt).
      * erewrite bind_run by apply print_run. unfold ret, set_stdout.
        world_simpl; rewrite <- ?app_assoc; reflexivity.
      * rewrite <- ?app_assoc. reflexivity.
Qed.

Lemma capture_name_stamp (prefix : string) (d : datetime) :
  capture_name prefix d = prefix ++ "_" ++ stamp d ++ ".png".
Proof. unfold capture_name. now rewrite drop_last_strftime. Qed.

Lemma join_nonempty (a b : string) : b <> "" -> join a b <> "".
Proof.
  intros Hb. unfold join.
  destruct (startswith b "/"); [assumption|].
  destruct ((a =? "") || endswith a "/"); intros E;
    apply append_eq_nil in E; destruct E as [_ E];
    [contradiction | discriminate].
Qed.

Lemma capture_path_nonempty (dir prefix : string) (d : datetime) :
  (join dir (capture_name prefix d) =? "") = false.
Proof.
  apply String.eqb_neq, join_nonempty. unfold capture_name. intros E.
  apply append_eq_nil in E. destruct E as [_ E]. discriminate.
Qed.

(** With a handled outcome [take_screenshot] returns: the path when the
    capture succeeded, [None] otherwise. *)
Lemma take_screenshot_handled (filename_prefix : string)
    (description : option string) (w : world) :
  handled (capture_tool w (length (launched w))) = true ->
  exists fs regular said,
    take_screenshot filename_prefix description w
    = (Return (if succeeded (capture_tool w (length (launched w)))
               then Some (join (screenshots_dir w)
                               (capture_name filename_prefix (clock w (ticks w))))
               else None),
       launched_world filename_prefix description w fs regular said).
Proof.
  intros H. rewrite take_screenshot_run. cbv zeta.
  destruct (capture_tool w (length (launched w))) as [rc present | e];
    cbn [handled succeeded] in *.
  - destruct present; [destruct (rc =? 0)%Z|rewrite andb_false_r];
      cbn [andb]; eauto.
  - destruct (issubclass (exn_cls e) CalledProcessError); [eauto|].
    cbn [orb] in H. rewrite H. eauto.
Qed.

(** ** The guided sequence *)

Lemma capture_step_run (total i : nat) (prefix description : string)
    (screenshots : list capture_record) (w : world)
    (line : string) (rest : list operator_action) :
  stdin w = Enter line :: rest ->
  handled (capture_tool w (length (launched w))) = true ->
  exists w',
    capture_step total i (prefix, description) screenshots w
    = (Return
         (screenshots
          ++ (if succeeded (capture_tool w (length (launched w)))
              then [(prefix,
                     join (screenshots_dir w)
                          (capture_name prefix (clock w (ticks w))),
                     description)]
              else []))%list,
       w') /\
    after_rounds [(prefix, description)] w w'.
Proof.
  intros Hin Hh. unfold capture_step, Script.capture_step; refold.
  erewrite bind_run by apply print_run.
  erewrite bind_run by (apply input_enter; exact Hin).
  match goal with
  | |- context [bind (take_screenshot _ _) _ ?w1] =>
      destruct (take_screenshot_handled prefix (Some description) w1 Hh)
        as [fs [regular [said Hts]]]
  end.
  erewrite bind_run by exact Hts.
  unfold launched_world, set_stdin, set_stdout. world_simpl.
  assert (Hround : forall w2 fs' regular' said' slept',
    w2 = mkWorld (script_path w) fs' (clock w) (S (ticks w)) (capture_tool w)
           (launched w
            ++ [capture_argv (join (screenshots_dir w)
                                   (capture_name prefix (clock w (ticks w))))])
           rest (stdout w ++ said') slept' regular' (read_only w)
           (ascii_terminal w) ->
    after_rounds [(prefix, description)] w w2).
  { intros w2 fs' regular' said' slept' ->. unfold after_rounds. world_simpl.
    cbn [length expected_launches]. rewrite Hin. cbn [skipn].
    repeat split; try reflexivity; [lia | eauto]. }
  destruct (succeeded (capture_tool w (length (launched w)))).
  - rewrite capture_path_nonempty.
    destruct (i <? total)%nat; eexists; (split; [reflexivity|]);
      unfold bind, print, sleep, ret, set_stdout, set_slept; world_simpl;
      eapply Hround; rewrite <- ?app_assoc; reflexivity.
  - rewrite app_nil_r.
    destruct (i <? total)%nat; eexists; (split; [reflexivity|]);
      unfold bind, print, sleep, ret, set_stdout, set_slept; world_simpl;
      eapply Hround; rewrite <- ?app_assoc; reflexivity.
Qed.

Lemma screenshots_dir_script (w w' : world) :
  script_path w' = script_path w -> screenshots_dir w' = screenshots_dir w.
Proof. unfold screenshots_dir. now intros ->. Qed.

Lemma after_rounds_cons (item : string * string)
    (rest : list (string * string)) (w w1 w' : world) :
  after_rounds [item] w w1 -> after_rounds rest w1 w' ->
  after_rounds (item :: rest) w w'.
Proof.
  intros (Hs & Hc & Ht & Hk & Hl & Hi & said & Ho)
         (Hs' & Hc' & Ht' & Hk' & Hl' & Hi' & said' & Ho').
  unfold after_rounds.
  rewrite Hs', Hc', Ht', Hk', Hl', Hi', Ho'.
  rewrite (screenshots_dir_script _ _ Hs).
  rewrite Hs, Hc, Ht, Hk, Hl, Hi, Ho.
  destruct item as [prefix description].
  cbn [length expected_launches].
  replace (ticks w + 1) with (S (ticks w)) by lia.
  repeat split; try reflexivity.
  - lia.
  - now rewrite <- app_assoc.
  - destruct (stdin w); [now destruct (length rest) | reflexivity].
  - exists (said ++ said')%list. now rewrite app_assoc.
Qed.

Lemma sequence_loop_run (items : list (string * string)) :
  forall (total i : nat) (screenshots : list capture_record) (w : world),
    answered (length items) w = true ->
    tool_handled (length items) w = true ->
    exists w',
      sequence_loop total i items screenshots w
      = (Return
           (screenshots
            ++ expected_records (screenshots_dir w) (clock w) (capture_tool w)
                 (ticks w) (length (launched w)) items)%list,
         w') /\
      after_rounds items w w'.
Proof.
  induction items as [|[prefix description] rest IH];
    intros total i screenshots w Ha Hh.
  - exists w. unfold sequence_loop; cbn [Script.sequence_loop expected_records]; refold. rewrite app_nil_r.
    split; [reflexivity|]. unfold after_rounds.
    cbn [length expected_launches skipn].
    rewrite app_nil_r. repeat split; try reflexivity; [lia|].
    exists []. now rewrite app_nil_r.
  - unfold answered in Ha. unfold tool_handled in Hh.
    cbn [length all_enter handled_from] in Ha, Hh.
    destruct (stdin w) as [|[line|] actions] eqn:Hin; try discriminate.
    apply andb_true_iff in Hh. destruct Hh as [Hh1 Hh].
    destruct (capture_step_run total i prefix description screenshots w
                line actions Hin Hh1) as [w1 [Hstep Hw1]].
    pose proof Hw1 as (Hs & Hc & Ht & Hk & Hl & Hi & _).
    rewrite Hin in Hi. cbn [length skipn] in Hi, Hk, Hl.
    assert (Hlen : length (launched w1) = S (length (launched w))).
    { rewrite Hl. cbn [expected_launches]. rewrite length_app.
      cbn [length]. lia. }
    destruct (IH total (S i)
                (screenshots
                 ++ (if succeeded (capture_tool w (length (launched w)))
                     then [(prefix,
                            join (screenshots_dir w)
                                 (capture_name prefix (clock w (ticks w))),
                            description)]
                     else []))%list w1) as [w' [Hloop Hw']].
    { unfold answered. now rewrite Hi. }
    { unfold tool_handled. now rewrite Ht, Hlen. }
    exists w'. split.
    + unfold sequence_loop; cbn [Script.sequence_loop]; refold. erewrite bind_run by exact Hstep.
      rewrite Hloop. rewrite (screenshots_dir_script _ _ Hs).
      rewrite Hc, Ht, Hk, Hlen. cbn [expected_records].
      replace (ticks w + 1) with (S (ticks w)) by lia.
      now rewrite <- app_assoc.
    + eapply after_rounds_cons; eassumption.
Qed.

Lemma print_captured_run (screenshots : list capture_record) (w : world) :
  print_captured screenshots w
  = (Return tt,
     set_stdout
       (stdout w
        ++ map (fun r : capture_record =>
                  let '(_, filepath, description) := r in
                  "  • " ++ basename filepath ++ " - " ++ description ++ nl)
               screenshots)
       w).
Proof.
  revert w. induction screenshots as [|[[prefix filepath] description] rest IH];
    intros w; unfold print_captured; cbn [Script.print_captured map]; refold.
  - unfold ret, set_stdout. rewrite app_nil_r. now destruct w.
  - erewrite bind_run by apply print_run. rewrite IH.
    unfold set_stdout. world_simpl. rewrite <- app_assoc. cbn [app].
    now rewrite !append_assoc.
Qed.

(** The guided sequence in a run where every prompt is answered and every
    run of the tool ends in a handled outcome. *)
Lemma guided_sequence_run (w : world) :
  answered (length sequence) w = true ->
  tool_handled (length sequence) w = true ->
  let screenshots :=
    expected_records (screenshots_dir w) (clock w) (capture_tool w)
      (ticks w) (length (launched w)) sequence in
  exists w',
    guided_screenshot_sequence w = (Return screenshots, w') /\
    launched w'
    = (launched w
       ++ expected_launches (screenshots_dir w) (clock w) (ticks w) sequence)%list /\
    length (launched w') = length (launched w) + 6 /\
    exists said,
      stdout w'
      = (stdout w ++ said ++ closing_lines (screenshots_dir w)
         ++ summary_lines screenshots)%list.
Proof.
  intros Ha Hh. cbv zeta. unfold guided_screenshot_sequence, Script.guided_screenshot_sequence; refold.
  do 5 (erewrite bind_run by apply print_run; unfold set_stdout; world_simpl).
  match goal with
  | |- context [bind (sequence_loop _ _ _ _) _ ?w0] =>
      destruct (sequence_loop_run sequence (length sequence) 1 [] w0 Ha Hh)
        as [w1 [Hloop Hw1]]
  end.
  destruct Hw1 as (Hs & Hc & Ht & Hk & Hl & Hi & said & Ho).
  unfold screenshots_dir in Hl, Hloop.
  world_simpl_in Hs. world_simpl_in Hc. world_simpl_in Ht.
  world_simpl_in Hk. world_simpl_in Hl. world_simpl_in Ho.
  world_simpl_in Hloop.
  fold (screenshots_dir w) in Hl, Hloop.
  cbn [app] in Hloop.
  erewrite bind_run by exact Hloop.
  set (screenshots :=
         expected_records (screenshots_dir w) (clock w) (capture_tool w)
           (ticks w) (length (launched w)) sequence) in *.
  erewrite bind_run by apply print_run.
  erewrite bind_run by apply create_screenshots_directory_run.
  erewrite bind_run by apply print_run.
  unfold set_stdout, with_directory, set_files, set_paths. world_simpl.
  unfold screenshots_dir. world_simpl. rewrite Hs. fold (screenshots_dir w).
  assert (Hlen : length (launched w1) = length (launched w) + 6).
  { rewrite Hl, length_app. reflexivity. }
  repeat rewrite <- app_assoc in Ho. cbn [app] in Ho.
  destruct screenshots as [|r rest] eqn:E.
  - eexists. split; [unfold bind, ret; reflexivity|]. world_simpl.
    split; [exact Hl|]. split; [exact Hlen|].
    match type of Ho with _ = (_ ++ ?l)%list => exists l end.
    rewrite Ho. cbn [summary_lines]. unfold closing_lines.
    repeat rewrite <- app_assoc. cbn [app].
    repeat rewrite <- app_assoc. reflexivity.
  - erewrite bind_run.
    2:{ erewrite bind_run by apply print_run. apply print_captured_run. }
    eexists. split; [unfold ret; reflexivity|].
    unfold set_stdout. world_simpl.
    split; [exact Hl|]. split; [exact Hlen|].
    match type of Ho with _ = (_ ++ ?l)%list => exists l end.
    rewrite Ho. cbn [summary_lines]. unfold closing_lines.
    repeat rewrite <- app_assoc. cbn [app].
    repeat rewrite <- app_assoc. cbn [app].
    repeat rewrite append_assoc. reflexivity.
Qed.

(** C2, where the code departs from the claim: the capture tool cannot be
    started, so the first capture of the guided sequence fails with an
    exception that [take_screenshot] does not catch; the sequence does not
    go on to the second item: it ends with that exception after one launch
    out of six and returns no list, with five answers of the operator left
    unread.  When every capture ends in a way [take_screenshot] handles, as
    in the run where every other capture fails with status one, the six
    launches are made and the three successes are returned. *)
Theorem guided_sequence_aborts_at_failed_capture :
  length sequence = 6 /\
  fst (guided_screenshot_sequence no_tool_world) = Raise tool_missing /\
  launched (snd (guided_screenshot_sequence no_tool_world))
  = [capture_argv (sample_dir ++ "/initial_20240309_140507_123.png")] /\
  stdin (snd (guided_screenshot_sequence no_tool_world)) = repeat (Enter "") 5 /\
  length (launched (snd (guided_screenshot_sequence patient_world))) = 6 /\
  match fst (guided_screenshot_sequence patient_world) with
  | Return screenshots =>
      map (fun r : capture_record => fst (fst r)) screenshots
      = ["initial"; "wave_propagation"; "wall_interaction"]
  | Raise _ => False
  end.
Proof. vm_compute. repeat split. Qed.

(** ** What [take_screenshot] does with the outcomes of the tool *)

(** When the tool runs to its end, [take_screenshot] returns the path it
    built exactly when the status is zero and the file exists afterwards,
    and [None] otherwise. *)
Lemma take_screenshot_completed (filename_prefix : string)
    (description : option string) (w : world) (returncode : Z)
    (file_present : bool) :
  capture_tool w (length (launched w)) = Completed returncode file_present ->
  let filepath :=
    join (screenshots_dir w) (capture_name filename_prefix (clock w (ticks w)))
  in
  let w' := snd (take_screenshot filename_prefix description w) in
  mem filepath (paths w') = file_present /\
  fst (take_screenshot filename_prefix description w)
  = Return (if (returncode =? 0)%Z && mem filepath (paths w')
            then Some filepath else None).
Proof.
  intros H. cbv zeta. rewrite take_screenshot_run. cbv zeta. rewrite H.
  destruct file_present; [destruct (returncode =? 0)%Z|];
    unfold launched_world; world_simpl;
    rewrite ?mem_touch, ?mem_remove, ?andb_false_r; split; reflexivity.
Qed.

(** An interrupt during the call, and a [CalledProcessError], end in
    [None]. *)
Lemma take_screenshot_caught (filename_prefix : string)
    (description : option string) (w : world) (e : exn) :
  capture_tool w (length (launched w)) = Failed e ->
  issubclass (exn_cls e) CalledProcessError
  || issubclass (exn_cls e) KeyboardInterrupt = true ->
  fst (take_screenshot filename_prefix description w) = Return None.
Proof.
  intros H Hc. rewrite take_screenshot_run. cbv zeta. rewrite H.
  destruct (issubclass (exn_cls e) CalledProcessError); [reflexivity|].
  cbn [orb] in Hc. now rewrite Hc.
Qed.

(** Any other exception of the call leaves [take_screenshot] as it came. *)
Lemma take_screenshot_uncaught (filename_prefix : string)
    (description : option string) (w : world) (e : exn) :
  capture_tool w (length (launched w)) = Failed e ->
  issubclass (exn_cls e) CalledProcessError
  || issubclass (exn_cls e) KeyboardInterrupt = false ->
  fst (take_screenshot filename_prefix description w) = Raise e.
Proof.
  intros H Hc. rewrite take_screenshot_run. cbv zeta. rewrite H.
  apply orb_false_iff in Hc. destruct Hc as [-> ->]. reflexivity.
Qed.

(** C1, where the code departs from the claim: the capture tool cannot be
    started (it is not installed), [subprocess.run] raises
    [FileNotFoundError], neither [except] clause of [take_screenshot] names
    a class of that exception, and the call raises it past the call site
    instead of returning [None]; the interpreter ends with status one. *)
Theorem take_screenshot_tool_missing_raises :
  fst (take_screenshot_default no_tool_world) = Raise tool_missing /\
  launched (snd (take_screenshot_default no_tool_world))
  = [capture_argv (sample_dir ++ "/wave_sim_20240309_140507_123.png")] /\
  fst (run_script ["screenshot_capture.py"] no_tool_world) = 1%Z.
Proof. vm_compute. repeat split. Qed.

(** C4, where the code departs from the claim: in the guided sequence the
    operator presses Ctrl-C at the first prompt; [input] raises
    [KeyboardInterrupt] outside every [try], the exception passes through
    [guided_screenshot_sequence] and [main], and the interpreter ends on it,
    while the same interrupt during the capture call is caught. *)
Theorem prompt_interrupt_escapes_main :
  fst (main ["screenshot_capture.py"; "--sequence"] interrupted_prompt_world)
  = Raise (mkExn KeyboardInterrupt "") /\
  fst (run_script ["screenshot_capture.py"; "--sequence"]
         interrupted_prompt_world) = 130%Z /\
  fst (main ["screenshot_capture.py"] interrupted_capture_world) = Return tt.
Proof. vm_compute. repeat split. Qed.

(** ** The path of a successful capture *)

Lemma all_chars_weaken (p q : ascii -> bool) (s : string) :
  (forall c, p c = true -> q c = true) ->
  all_chars p s = true -> all_chars q s = true.
Proof.
  intros Hpq. induction s as [|c s IH]; cbn [all_chars]; [reflexivity|].
  intros H. apply andb_true_iff in H. destruct H as [Hc Hs].
  now rewrite (Hpq c Hc), (IH Hs).
Qed.

Lemma digit_not_slash (c : ascii) :
  is_digit c = true -> negb (Ascii.eqb c slash) = true.
Proof.
  intros H. destruct (Ascii.eqb_spec c slash) as [-> | _];
    [discriminate H | reflexivity].
Qed.

Lemma zfill_slash_free (width : nat) (n : N) :
  slash_free (zfill width n) = true.
Proof.
  unfold slash_free.
  apply (all_chars_weaken is_digit); [apply digit_not_slash|].
  apply zfill_digits.
Qed.

Lemma stamp_slash_free (d : datetime) : slash_free (stamp d) = true.
Proof.
  unfold stamp, slash_free. rewrite !all_chars_append.
  fold (slash_free (zfill 4 (year d))). fold (slash_free (zfill 2 (month d))).
  fold (slash_free (zfill 2 (day d))). fold (slash_free (zfill 2 (hour d))).
  fold (slash_free (zfill 2 (minute d))).
  fold (slash_free (zfill 2 (second d))).
  fold (slash_free (zfill 3 (microsecond d / 1000))).
  rewrite !zfill_slash_free. reflexivity.
Qed.

Lemma capture_name_slash_free (prefix : string) (d : datetime) :
  slash_free prefix = true -> slash_free (capture_name prefix d) = true.
Proof.
  intros Hp. rewrite capture_name_stamp. unfold slash_free in *.
  rewrite !all_chars_append, Hp.
  fold (slash_free (stamp d)). rewrite stamp_slash_free. reflexivity.
Qed.

Lemma strip_prefix_append (a b : string) : strip_prefix a (a ++ b) = Some b.
Proof.
  induction a as [|c a IH]; cbn [append strip_prefix].
  - now destruct b.
  - now rewrite Ascii.eqb_refl.
Qed.

Lemma child_of_joined (d name : string) :
  name <> "" -> slash_free name = true ->
  child_of d (d ++ "/" ++ name) = Some name.
Proof.
  intros Hne Hsf. unfold child_of.
  rewrite <- append_assoc, strip_prefix_append, Hsf.
  apply String.eqb_neq in Hne. now rewrite Hne.
Qed.

(** The path [take_screenshot] builds for a prefix without a slash. *)
Lemma capture_path_plain (w : world) (prefix : string) (d : datetime) :
  slash_free prefix = true ->
  join (screenshots_dir w) (capture_name prefix d)
  = screenshots_dir w ++ "/" ++ capture_name prefix d.
Proof.
  intros Hp. destruct (screenshots_dir_shape w) as [a ->].
  apply join_plain; [reflexivity | now apply capture_name_slash_free].
Qed.

(** C6, as amended: when [take_screenshot] returns a path for a prefix
    that holds no slash, the path is the output
    directory, a slash, and the file name [<prefix>_<stamp>.png]: its
    directory part is the output directory, its base name is that file name,
    it is an entry of the output directory and exists; the stamp renders the
    clock reading of the capture as [YYYYMMDD_HHMMSS_mmm], with the
    milliseconds of the reading, below one thousand, in its last three
    digits. *)
Theorem successful_capture_path (prefix : string) (description : option string)
    (w w' : world) (path : string) :
  valid_datetime (clock w (ticks w)) ->
  slash_free prefix = true ->
  take_screenshot prefix description w = (Return (Some path), w') ->
  let d := clock w (ticks w) in
  let filename := prefix ++ "_" ++ stamp d ++ ".png" in
  path = screenshots_dir w ++ "/" ++ filename /\
  dirname path = screenshots_dir w /\
  basename path = filename /\
  child_of (screenshots_dir w) path = Some filename /\
  mem path (paths w') = true /\
  stamp_shape (stamp d) = true /\
  stamp d
  = zfill 4 (year d) ++ zfill 2 (month d) ++ zfill 2 (day d) ++ "_"
    ++ zfill 2 (hour d) ++ zfill 2 (minute d) ++ zfill 2 (second d) ++ "_"
    ++ zfill 3 (microsecond d / 1000) /\
  (microsecond d / 1000 < 1000)%N.
Proof.
  intros Hv Hp Hrun. cbv zeta.
  set (d := clock w (ticks w)) in *.
  assert (Hsf : slash_free (capture_name prefix d) = true)
    by now apply capture_name_slash_free.
  assert (Hpath : path = screenshots_dir w ++ "/" ++ capture_name prefix d
                  /\ mem path (paths w') = true).
  { rewrite take_screenshot_run in Hrun. cbv zeta in Hrun. fold d in Hrun.
    rewrite (capture_path_plain w prefix d Hp) in Hrun.
    destruct (capture_tool w (length (launched w))) as [rc present | e].
    - destruct present; [destruct (rc =? 0)%Z|]; try discriminate.
      injection Hrun as Hpath Hw. subst w'. split; [now symmetry|].
      unfold launched_world. world_simpl. rewrite <- Hpath. apply mem_touch.
    - destruct (issubclass (exn_cls e) CalledProcessError); [discriminate|].
      destruct (issubclass (exn_cls e) KeyboardInterrupt); discriminate. }
  destruct Hpath as [Hpath Hmem]. rewrite capture_name_stamp in Hpath, Hsf.
  split; [exact Hpath|]. rewrite Hpath.
  destruct (screenshots_dir_shape w) as [a Ha].
  repeat split.
  - rewrite Ha. now apply dirname_joined.
  - now apply basename_joined.
  - apply child_of_joined; [|exact Hsf].
    intros E. apply append_eq_nil in E. destruct E as [_ E]. discriminate.
  - rewrite <- Hpath. exact Hmem.
  - apply stamp_has_shape.
  - destruct Hv as (_ & _ & _ & _ & _ & _ & Hus).
    apply N.Div0.div_lt_upper_bound. exact Hus.
Qed.

Lemma successful_capture_path_sample :
  valid_datetime sample_time /\
  slash_free "wave_sim" = true /\
  dirname (sample_dir ++ "/wave_sim_20240309_140507_123.png") = sample_dir /\
  basename (sample_dir ++ "/wave_sim_20240309_140507_123.png")
  = "wave_sim_20240309_140507_123.png".
Proof.
  assert (Hv : valid_datetime (clock patient_world (ticks patient_world)))
    by (vm_compute; repeat split; discriminate).
  assert (Hp : slash_free "wave_sim" = true) by reflexivity.
  assert (Hrun :
    take_screenshot "wave_sim" None patient_world
    = (Return (Some (sample_dir ++ "/wave_sim_20240309_140507_123.png")),
       snd (take_screenshot "wave_sim" None patient_world))).
  { vm_compute. reflexivity. }
  pose proof (successful_capture_path "wave_sim" None patient_world _ _
                Hv Hp Hrun) as H.
  cbv zeta in H. destruct H as (_ & Hd & Hb & _).
  split; [exact Hv|]. split; [exact Hp|].
  split; [exact Hd | exact Hb].
Defined.

(** C6, the claim as stated fails: with a prefix that starts with a slash
    the capture succeeds and the path returned is the prefix, the stamp and
    the extension; it does not lie in the output directory. *)
Lemma absolute_prefix_capture_leaves_directory :
  fst (take_screenshot "/tmp/shot" None patient_world)
  = Return (Some "/tmp/shot_20240309_140507_123.png") /\
  screenshots_dir patient_world = "/Users/dev/WaveSim/WaveSimScreenshots" /\
  dirname "/tmp/shot_20240309_140507_123.png" = "/tmp" /\
  child_of (screenshots_dir patient_world) "/tmp/shot_20240309_140507_123.png"
  = None.
Proof. vm_compute. repeat split. Qed.

(** ** Sorting the listing *)



Lemma leb_false_flip (x y : string) :
  String.leb x y = false -> String.leb y x = true.
Proof.
  intros H. destruct (String.leb_total x y) as [E | E];
    [rewrite E in H; discriminate | exact E].
Qed.

Lemma insert_sorted_sorted (x : string) (l : list string) :
  sorted_strings l -> sorted_strings (insert_sorted x l).
Proof.
  unfold sorted_strings. induction l as [|y l IH]; cbn [insert_sorted];
    intros Hs.
  - repeat constructor.
  - destruct (String.leb x y) eqn:E.
    + constructor; [exact Hs | now constructor].
    + inversion Hs as [|? ? Hl Hhd]; subst.
      constructor; [now apply IH|].
      destruct l as [|z l]; cbn [insert_sorted].
      * constructor. now apply leb_false_flip.
      * destruct (String.leb x z); constructor;
          [now apply leb_false_flip | now inversion Hhd].
Qed.

Lemma sort_sorted (l : list string) : sorted_strings (sort l).
Proof.
  induction l as [|x l IH]; cbn [sort];
    [constructor | now apply insert_sorted_sorted].
Qed.


(** The order of strings is transitive, so a list has one sorted
    arrangement only: whatever algorithm [list.sort] runs, its result is
    [sort]. *)
Lemma ascii_compare_refl (a : ascii) : Ascii.compare a a = Eq.
Proof. unfold Ascii.compare. apply N.compare_refl. Qed.

Lemma ascii_compare_lt_trans (a b c : ascii) :
  Ascii.compare a b = Lt -> Ascii.compare b c = Lt -> Ascii.compare a c = Lt.
Proof.
  unfold Ascii.compare. rewrite !N.compare_lt_iff. apply N.lt_trans.
Qed.

Lemma string_leb_trans (a b c : string) :
  String.leb a b = true -> String.leb b c = true -> String.leb a c = true.
Proof.
  unfold String.leb. revert b c.
  induction a as [|x a IH]; intros [|y b] [|z c];
    cbn [String.compare]; try easy.
  destruct (Ascii.compare x y) eqn:Exy; try easy;
    destruct (Ascii.compare y z) eqn:Eyz; try easy.
  - apply Ascii.compare_eq_iff in Exy, Eyz. subst y z.
    rewrite ascii_compare_refl. apply IH.
  - apply Ascii.compare_eq_iff in Exy. subst y. now rewrite Eyz.
  - apply Ascii.compare_eq_iff in Eyz. subst z. now rewrite Exy.
  - now rewrite (ascii_compare_lt_trans x y z Exy Eyz).
Qed.

Lemma sorted_strongly (l : list string) :
  sorted_strings l -> StronglySorted (fun a b => String.leb a b = true) l.
Proof.
  apply Sorted_StronglySorted. intros a b c. apply string_leb_trans.
Qed.


(** ** [update_readme_with_screenshots] *)

Lemma concat_cons (x : string) (l : list string) :
  String.concat "" (x :: l) = x ++ String.concat "" l.
Proof.
  destruct l as [|y l]; cbn [String.concat]; [now rewrite append_nil_r|].
  reflexivity.
Qed.

Lemma build_markdown_from (l : list string) (acc : string) :
  fold_left (fun markdown filename => markdown ++ embed_line filename) l acc
  = acc ++ String.concat "" (map embed_line l).
Proof.
  revert acc. induction l as [|x l IH]; intros acc; cbn [fold_left map].
  - cbn [String.concat]. now rewrite append_nil_r.
  - rewrite IH, concat_cons. apply append_assoc.
Qed.

Lemma build_markdown_spec (l : list string) : build_markdown l = markdown_of l.
Proof.
  unfold build_markdown, markdown_of. rewrite build_markdown_from.
  now rewrite !append_assoc.
Qed.

Lemma update_readme_run (w : world) :
  update_readme_with_screenshots w
  = (Return tt,
     set_stdout (stdout w ++ readme_output (sort (png_files w)))
       (with_directory (screenshots_dir w) w)).
Proof.
  unfold update_readme_with_screenshots, Script.update_readme_with_screenshots;
    refold.
  erewrite bind_run by apply create_screenshots_directory_run.
  unfold with_directory, set_files, set_paths. world_simpl.
  unfold bind at 1, path_exists at 1. world_simpl.
  rewrite mem_touch.
  unfold bind at 1, bind at 1, listdir, ret at 1. world_simpl.
  rewrite children_touch_dir. fold (png_files w).
  destruct (sort (png_files w)) as [|first rest] eqn:E.
  - reflexivity.
  - do 4 (erewrite bind_run by apply print_run; unfold set_stdout; world_simpl).
    rewrite print_run, build_markdown_spec.
    unfold set_stdout. world_simpl. cbn [readme_output].
    repeat rewrite <- app_assoc. reflexivity.
Qed.

(** ** PNG detection and the alternative text *)

Lemma lower_append (a b : string) : lower (a ++ b) = lower a ++ lower b.
Proof.
  induction a as [|c a IH]; cbn [append lower]; [reflexivity | now rewrite IH].
Qed.


Lemma startswith_nil (s : string) : startswith s "" = true.
Proof. now destruct s. Qed.







Lemma title_from_length (s : string) (b : bool) :
  String.length (title_from b s) = String.length s.
Proof.
  revert b. induction s as [|c s IH]; intros b; cbn [title_from String.length];
    [reflexivity | now rewrite IH].
Qed.

Lemma replace_underscore_step (c : ascii) (r : string) :
  replace (String c r) "_" " "
  = String (if Ascii.eqb c "_" then " "%char else c) (replace r "_" " ").
Proof.
  unfold replace. cbn [replace_from startswith String.length Nat.sub].
  rewrite startswith_nil, andb_true_r, Ascii.eqb_sym.
  now destruct (Ascii.eqb c "_").
Qed.


Lemma replace_underscore_length (s : string) :
  String.length (replace s "_" " ") = String.length s.
Proof.
  induction s as [|a r IH]; [reflexivity|].
  rewrite replace_underscore_step. cbn [String.length]. now rewrite IH.
Qed.





(** ** The dispatcher *)


(** On the cooperating host every call of [take_screenshot] launches the
    tool once, on the path it built, however the call ends. *)
Lemma take_screenshot_launches (filename_prefix : string)
    (description : option string) (w : world) :
  launched (snd (take_screenshot filename_prefix description w))
  = (launched w
     ++ [capture_argv
           (join (screenshots_dir w)
                 (capture_name filename_prefix (clock w (ticks w))))])%list.
Proof.
  rewrite take_screenshot_run. cbv zeta.
  destruct (capture_tool w (length (launched w))) as [rc present | e].
  - destruct present; [destruct (rc =? 0)%Z|]; reflexivity.
  - destruct (issubclass (exn_cls e) CalledProcessError); [reflexivity|].
    destruct (issubclass (exn_cls e) KeyboardInterrupt); reflexivity.
Qed.



(** ** The exit status *)

Lemma run_script_status (argv : list string) (w : world) :
  fst (run_script argv w) = exit_status (fst (main argv w)).
Proof. unfold run_script, Script.run_script; refold. now destruct (main argv w). Qed.

(** C8, where the code departs from the claim: the script sets no exit
    status of its own, and the status is zero on the paths where the
    failure is handled (a capture that fails or is cancelled during the
    call, the guided sequence with failed captures, no screenshot found, an
    unknown option); but a cancellation at a prompt of the guided sequence,
    and a capture tool that cannot be started, end the interpreter on an
    uncaught exception, with a status that is not zero. *)
Theorem exit_status_after_uncaught_exception :
  fst (run_script ["screenshot_capture.py"; "--sequence"] half_answered_world)
  = 130%Z /\
  fst (run_script ["screenshot_capture.py"; "--sequence"] no_tool_world) = 1%Z /\
  fst (run_script ["screenshot_capture.py"] interrupted_capture_world) = 0%Z /\
  fst (run_script ["screenshot_capture.py"; "--sequence"] patient_world) = 0%Z /\
  fst (run_script ["screenshot_capture.py"; "--update-readme"] patient_world)
  = 0%Z /\
  fst (run_script ["screenshot_capture.py"; "--frobnicate"] patient_world)
  = 0%Z.
Proof. vm_compute. repeat split. Qed.

(** * Further properties *)

(** ** The project root *)

Lemma last_char_split (s : string) :
  s <> "" -> exists a c, s = a ++ String c "".
Proof.
  induction s as [|x s IH]; intros H; [contradiction|].
  destruct s as [|y s].
  - now exists "", x.
  - destruct IH as [a [c E]]; [discriminate|].
    exists (String x a), c. cbn [append]. now rewrite <- E.
Qed.

Lemma plain_end_split (s : string) :
  s <> "" -> endswith s "/" = false ->
  exists a c, s = a ++ String c "" /\ Ascii.eqb c slash = false.
Proof.
  intros Hne He. destruct (last_char_split s Hne) as [a [c ->]].
  rewrite endswith_slash_last in He. now exists a, c.
Qed.

Lemma endswith_slash_free (s : string) :
  s <> "" -> slash_free s = true -> endswith s "/" = false.
Proof.
  intros Hne Hs. destruct (last_char_split s Hne) as [a [c ->]].
  rewrite endswith_slash_last. unfold slash_free in Hs.
  rewrite all_chars_append in Hs. apply andb_true_iff in Hs.
  destruct Hs as [_ Hc]. cbn [all_chars] in Hc. rewrite andb_true_r in Hc.
  now destruct (Ascii.eqb c slash).
Qed.

Lemma endswith_after_slash (a s : string) :
  s <> "" -> endswith (a ++ "/" ++ s) "/" = endswith s "/".
Proof.
  intros Hne. destruct (last_char_split s Hne) as [b [c ->]].
  rewrite endswith_slash_last.
  replace (a ++ "/" ++ b ++ String c "") with ((a ++ "/" ++ b) ++ String c "")
    by now rewrite !append_assoc.
  apply endswith_slash_last.
Qed.

Lemma dirname_plain (a name : string) :
  a <> "" -> endswith a "/" = false -> slash_free name = true ->
  dirname (a ++ "/" ++ name) = a.
Proof.
  intros Hne He Hn. destruct (plain_end_split a Hne He) as [b [c [-> Hc]]].
  now apply dirname_joined.
Qed.

Lemma join_fixed_name (root : string) :
  root <> "" -> endswith root "/" = false ->
  join root "WaveSimScreenshots" = root ++ "/WaveSimScreenshots".
Proof.
  intros Hne He. unfold join.
  change (startswith "WaveSimScreenshots" "/") with false. cbv iota.
  apply String.eqb_neq in Hne. now rewrite Hne, He.
Qed.

(** X1: for a script stored as [<root>/<dir>/<file>], with [<dir>] and
    [<file>] plain names and [<root>] a path that does not end in a slash,
    [get_project_root] returns [<root>] and leaves the world as it is, and
    the output directory is [<root>/WaveSimScreenshots]. *)
Theorem project_root_two_levels_up (w : world) (root dir file : string) :
  root <> "" -> endswith root "/" = false ->
  dir <> "" -> slash_free dir = true -> slash_free file = true ->
  script_path w = root ++ "/" ++ dir ++ "/" ++ file ->
  get_project_root w = (Return root, w) /\
  screenshots_dir w = root ++ "/WaveSimScreenshots" /\
  fst (create_screenshots_directory w) = Return (root ++ "/WaveSimScreenshots").
Proof.
  intros Hr He Hd Hsd Hsf Hp.
  assert (Hroot : dirname (dirname (script_path w)) = root).
  { rewrite Hp.
    replace (root ++ "/" ++ dir ++ "/" ++ file)
      with ((root ++ "/" ++ dir) ++ "/" ++ file) by now rewrite !append_assoc.
    rewrite dirname_plain; [now apply dirname_plain| | |exact Hsf].
    - intros E. apply append_eq_nil in E. destruct E as [_ E]. discriminate.
    - rewrite endswith_after_slash by exact Hd.
      now apply endswith_slash_free. }
  assert (Hdir : screenshots_dir w = root ++ "/WaveSimScreenshots").
  { unfold screenshots_dir. rewrite Hroot. now apply join_fixed_name. }
  split; [unfold get_project_root; now rewrite Hroot|].
  split; [exact Hdir|].
  rewrite create_screenshots_directory_run. cbn [fst]. now rewrite Hdir.
Qed.

Lemma project_root_two_levels_up_sample :
  script_path patient_world
  = "/Users/dev/WaveSim" ++ "/" ++ "utils" ++ "/" ++ "screenshot_capture.py" /\
  get_project_root patient_world = (Return "/Users/dev/WaveSim", patient_world) /\
  screenshots_dir patient_world = sample_dir.
Proof.
  assert (Hp : script_path patient_world
               = "/Users/dev/WaveSim" ++ "/" ++ "utils" ++ "/"
                 ++ "screenshot_capture.py") by reflexivity.
  destruct (project_root_two_levels_up patient_world "/Users/dev/WaveSim"
              "utils" "screenshot_capture.py") as (H1 & H2 & _);
    try reflexivity; try discriminate.
  split; [exact Hp|]. split; [exact H1 | exact H2].
Defined.

(** X2: for a script stored as [/<dir>/<file>], directly below a directory
    of the filesystem root, the project root is the root [/] itself and the
    output directory is [/WaveSimScreenshots], with a single slash. *)
Theorem project_root_at_filesystem_root (w : world) (dir file : string) :
  dir <> "" -> slash_free dir = true -> slash_free file = true ->
  script_path w = "/" ++ dir ++ "/" ++ file ->
  get_project_root w = (Return "/", w) /\
  screenshots_dir w = "/WaveSimScreenshots".
Proof.
  intros Hd Hsd Hsf Hp.
  assert (Hroot : dirname (dirname (script_path w)) = "/").
  { rewrite Hp.
    replace ("/" ++ dir ++ "/" ++ file)
      with (("/" ++ dir) ++ "/" ++ file) by now rewrite !append_assoc.
    rewrite dirname_plain; [| discriminate | | exact Hsf].
    - unfold dirname. change ("/" ++ dir) with ("" ++ "/" ++ dir).
      now rewrite (rsplit_append "" dir Hsd).
    - change ("/" ++ dir) with ("" ++ "/" ++ dir).
      rewrite endswith_after_slash by exact Hd.
      now apply endswith_slash_free. }
  split; [unfold get_project_root; now rewrite Hroot|].
  unfold screenshots_dir. now rewrite Hroot.
Qed.

Lemma project_root_at_filesystem_root_sample :
  script_path root_level_world = "/" ++ "utils" ++ "/" ++ "screenshot_capture.py" /\
  screenshots_dir root_level_world = "/WaveSimScreenshots".
Proof.
  assert (Hp : script_path root_level_world
               = "/" ++ "utils" ++ "/" ++ "screenshot_capture.py")
    by reflexivity.
  destruct (project_root_at_filesystem_root root_level_world "utils"
              "screenshot_capture.py") as (_ & H2);
    try reflexivity; try discriminate.
  split; [exact Hp | exact H2].
Defined.

(** ** What a call of [take_screenshot] leaves behind *)

Lemma append_last_inj (a b : string) (c d : ascii) :
  a ++ String c "" = b ++ String d "" -> a = b /\ c = d.
Proof.
  revert b. induction a as [|x a IH]; intros [|y b] E; cbn [append] in E.
  - injection E as ->. now split.
  - injection E as _ E. destruct b; discriminate.
  - injection E as _ E. destruct a; discriminate.
  - injection E as -> E. destruct (IH b E) as [-> ->]. now split.
Qed.

Lemma join_keeps_name (a b : string) : exists x, join a b = x ++ b.
Proof.
  unfold join. destruct (startswith b "/"); [now exists ""|].
  destruct ((a =? "") || endswith a "/"); [now exists a|].
  exists (a ++ "/"). now rewrite append_assoc.
Qed.

(** The path of a capture is never the output directory itself. *)
Lemma capture_path_not_dir (w : world) (prefix : string) (d : datetime) :
  join (screenshots_dir w) (capture_name prefix d) <> screenshots_dir w.
Proof.
  destruct (join_keeps_name (screenshots_dir w) (capture_name prefix d))
    as [x ->].
  destruct (screenshots_dir_shape w) as [a ->].
  unfold capture_name. intros E.
  replace (x ++ prefix ++ "_" ++ drop_last 3 (strftime d) ++ ".png")
    with ((x ++ prefix ++ "_" ++ drop_last 3 (strftime d) ++ ".pn")
          ++ String "g" "") in E by now rewrite !append_assoc.
  apply append_last_inj in E. destruct E as [_ E]. discriminate.
Qed.

Lemma mem_remove_other (p q : string) (l : list string) :
  p <> q -> mem q (remove p l) = mem q l.
Proof.
  intros Hpq. unfold mem, remove. induction l as [|x l IH];
    cbn [filter existsb]; [reflexivity|].
  destruct (String.eqb_spec x p) as [-> | Hx]; cbn [negb existsb].
  - rewrite IH. apply String.eqb_neq in Hpq.
    rewrite String.eqb_sym, Hpq. reflexivity.
  - now rewrite IH.
Qed.

Lemma mem_touch_other (p q : string) (l : list string) :
  mem q l = true -> mem q (touch p l) = true.
Proof.
  intros H. unfold touch. destruct (mem p l); [exact H|].
  apply mem_In, in_or_app. left. now apply mem_In.
Qed.

(** On the cooperating host, however a call ends, the world it leaves is
    the one in which the tool was launched, with some set of paths that
    holds the output directory. *)
Lemma take_screenshot_world (filename_prefix : string)
    (description : option string) (w : world) :
  exists fs regular said,
    snd (take_screenshot filename_prefix description w)
    = launched_world filename_prefix description w fs regular said /\
    mem (screenshots_dir w) fs = true.
Proof.
  rewrite take_screenshot_run. cbv zeta.
  pose proof (mem_touch (screenshots_dir w) (paths w)) as Hd.
  pose proof (capture_path_not_dir w filename_prefix (clock w (ticks w)))
    as Hne.
  destruct (capture_tool w (length (launched w))) as [rc present | e].
  - destruct present; [destruct (rc =? 0)%Z|]; cbn [snd];
      do 3 eexists; (split; [reflexivity|]);
      try (now apply mem_touch_other).
    now rewrite mem_remove_other.
  - destruct (issubclass (exn_cls e) CalledProcessError);
      [|destruct (issubclass (exn_cls e) KeyboardInterrupt)];
      cbn [snd]; do 3 eexists; (split; [reflexivity | exact Hd]).
Qed.

(** ** From a capture to the Markdown listing *)







(** ** File names tell captures apart *)

Lemma append_inj_length (a a' b b' : string) :
  String.length a = String.length a' -> a ++ b = a' ++ b' ->
  a = a' /\ b = b'.
Proof.
  revert a'. induction a as [|x a IH]; intros [|y a'] Hl E;
    cbn [String.length append] in *; try discriminate.
  - now split.
  - injection E as -> E. injection Hl as Hl.
    destruct (IH a' Hl E) as [-> ->]. now split.
Qed.

Lemma string_cons_inj (c : ascii) (a b : string) :
  String c a = String c b -> a = b.
Proof. congruence. Qed.

Lemma capture_argv_inj (x y : string) :
  capture_argv x = capture_argv y -> x = y.
Proof. unfold capture_argv. congruence. Qed.

Lemma append_inv_head (a b c : string) : a ++ b = a ++ c -> b = c.
Proof. intros E. now apply (append_inj_length a a b c) in E. Qed.

Lemma stamp_length (d : datetime) : String.length (stamp d) = 19.
Proof.
  unfold stamp. rewrite !length_append, !zfill_length. reflexivity.
Qed.

Lemma digit_char_inj (n m : N) :
  (n < 10)%N -> (m < 10)%N ->
  ascii_of_N (48 + n) = ascii_of_N (48 + m) -> n = m.
Proof.
  intros Hn Hm E. apply (f_equal N_of_ascii) in E.
  rewrite !N_ascii_embedding in E by lia. lia.
Qed.

(** Two numbers with the same rendering agree on the digits rendered. *)
Lemma zfill_inj (width : nat) (n m : N) :
  zfill width n = zfill width m ->
  (n mod 10 ^ N.of_nat width = m mod 10 ^ N.of_nat width)%N.
Proof.
  revert n m. induction width as [|k IH]; intros n m E.
  - cbn [N.of_nat]. now rewrite !N.mod_1_r.
  - cbn [zfill] in E. apply append_last_inj in E. destruct E as [Eh Ed].
    apply IH in Eh.
    apply digit_char_inj in Ed; try (apply N.mod_lt; discriminate).
    rewrite Nat2N.inj_succ, N.pow_succ_r'.
    rewrite !N.Div0.mod_mul_r. now rewrite Eh, Ed.
Qed.

Lemma zfill_inj_small (width : nat) (n m : N) :
  (n < 10 ^ N.of_nat width)%N -> (m < 10 ^ N.of_nat width)%N ->
  zfill width n = zfill width m -> n = m.
Proof.
  intros Hn Hm E. apply zfill_inj in E.
  now rewrite !N.mod_small in E.
Qed.

(** The file name of a capture determines its prefix and its stamp,
    because every stamp has the same length. *)
Lemma capture_name_parts (p q : string) (d1 d2 : datetime) :
  capture_name p d1 = capture_name q d2 -> p = q /\ stamp d1 = stamp d2.
Proof.
  rewrite !capture_name_stamp. intros E.
  assert (Hl : String.length p = String.length q).
  { apply (f_equal String.length) in E.
    rewrite !length_append, !stamp_length in E. cbn [String.length] in E.
    lia. }
  apply append_inj_length in E; [|exact Hl]. destruct E as [-> E].
  split; [reflexivity|].
  cbn [append] in E. apply string_cons_inj in E.
  apply append_inj_length in E; [tauto|].
  now rewrite !stamp_length.
Qed.

Lemma stamp_fields (d1 d2 : datetime) :
  stamp d1 = stamp d2 ->
  zfill 4 (year d1) = zfill 4 (year d2) /\
  zfill 2 (month d1) = zfill 2 (month d2) /\
  zfill 2 (day d1) = zfill 2 (day d2) /\
  zfill 2 (hour d1) = zfill 2 (hour d2) /\
  zfill 2 (minute d1) = zfill 2 (minute d2) /\
  zfill 2 (second d1) = zfill 2 (second d2) /\
  zfill 3 (microsecond d1 / 1000) = zfill 3 (microsecond d2 / 1000).
Proof.
  unfold stamp. intros E.
  apply append_inj_length in E; [|now rewrite !zfill_length].
  destruct E as [Ey E]. split; [exact Ey|].
  apply append_inj_length in E; [|now rewrite !zfill_length].
  destruct E as [Emo E]. split; [exact Emo|].
  apply append_inj_length in E; [|now rewrite !zfill_length].
  destruct E as [Ed E]. split; [exact Ed|].
  cbn [append] in E. apply string_cons_inj in E.
  apply append_inj_length in E; [|now rewrite !zfill_length].
  destruct E as [Eh E]. split; [exact Eh|].
  apply append_inj_length in E; [|now rewrite !zfill_length].
  destruct E as [Emi E]. split; [exact Emi|].
  apply append_inj_length in E; [|now rewrite !zfill_length].
  destruct E as [Es E]. split; [exact Es|].
  cbn [append] in E. now apply string_cons_inj in E.
Qed.

(** X5: the file name encodes the prefix and the clock reading down to the
    millisecond, and nothing finer: for two valid readings, the names
    [<p>_<stamp>.png] and [<q>_<stamp>.png] are equal exactly when the
    prefixes are equal and the readings agree on year, month, day, hour,
    minute, second and millisecond.  So two captures with one prefix get
    different names unless they fall into the same millisecond. *)
Theorem capture_name_injective (p q : string) (d1 d2 : datetime) :
  valid_datetime d1 -> valid_datetime d2 ->
  (capture_name p d1 = capture_name q d2
   <-> p = q /\ year d1 = year d2 /\ month d1 = month d2 /\ day d1 = day d2 /\
       hour d1 = hour d2 /\ minute d1 = minute d2 /\ second d1 = second d2 /\
       (microsecond d1 / 1000 = microsecond d2 / 1000)%N).
Proof.
  intros (Hy1 & Hmo1 & Hd1 & Hh1 & Hmi1 & Hs1 & Hu1)
         (Hy2 & Hmo2 & Hd2 & Hh2 & Hmi2 & Hs2 & Hu2).
  split.
  - intros E. apply capture_name_parts in E. destruct E as [Ep E].
    apply stamp_fields in E.
    destruct E as (Ey & Emo & Ed & Eh & Emi & Es & Eu).
    assert (Hms1 : (microsecond d1 / 1000 < 1000)%N)
      by now apply N.Div0.div_lt_upper_bound.
    assert (Hms2 : (microsecond d2 / 1000 < 1000)%N)
      by now apply N.Div0.div_lt_upper_bound.
    split; [exact Ep|].
    repeat split;
      (eapply zfill_inj_small; [| |eassumption];
       cbn [N.of_nat Pos.of_succ_nat Pos.succ]; lia).
  - intros (-> & Ey & Emo & Ed & Eh & Emi & Es & Eu).
    rewrite !capture_name_stamp. unfold stamp.
    now rewrite Ey, Emo, Ed, Eh, Emi, Es, Eu.
Qed.

Lemma capture_name_injective_sample :
  valid_datetime sample_time /\
  valid_datetime (mkDatetime 2024 3 9 14 5 7 123999) /\
  capture_name "wave_sim" sample_time
  = capture_name "wave_sim" (mkDatetime 2024 3 9 14 5 7 123999).
Proof.
  assert (H1 : valid_datetime sample_time)
    by (vm_compute; repeat split; discriminate).
  assert (H2 : valid_datetime (mkDatetime 2024 3 9 14 5 7 123999))
    by (vm_compute; repeat split; discriminate).
  split; [exact H1|]. split; [exact H2|].
  apply (proj2 (capture_name_injective "wave_sim" "wave_sim" _ _ H1 H2)).
  vm_compute. repeat split.
Defined.

(** ** The targets of a guided sequence *)

Lemma in_expected_launches (dir : string) (clk : nat -> datetime)
    (items : list (string * string)) :
  forall (t : nat) (argv : list string),
    In argv (expected_launches dir clk t items) ->
    exists prefix d,
      In prefix (map fst items) /\
      argv = capture_argv (join dir (capture_name prefix d)).
Proof.
  induction items as [|[prefix description] rest IH]; intros t argv Hin;
    cbn [expected_launches map fst] in *; [contradiction|].
  destruct Hin as [<- | Hin].
  - exists prefix, (clk t). split; [now left | reflexivity].
  - destruct (IH _ _ Hin) as [p [d [Hp E]]]. exists p, d.
    split; [now right | exact E].
Qed.

Lemma expected_launches_nodup (a : string) (c : ascii)
    (clk : nat -> datetime) (items : list (string * string)) :
  Ascii.eqb c slash = false ->
  forallb slash_free (map fst items) = true ->
  NoDup (map fst items) ->
  forall t, NoDup (expected_launches (a ++ String c "") clk t items).
Proof.
  intros Hc. induction items as [|[prefix description] rest IH];
    intros Hsf Hnd t; cbn [expected_launches map fst forallb] in *;
    [constructor|].
  apply andb_true_iff in Hsf. destruct Hsf as [Hp Hsf].
  inversion Hnd as [|? ? Hnotin Hnd']; subst.
  constructor; [|now apply IH].
  intros Hin. apply in_expected_launches in Hin.
  destruct Hin as [q [d [Hq E]]].
  assert (Hqs : slash_free q = true).
  { rewrite forallb_forall in Hsf. now apply Hsf. }
  apply capture_argv_inj in E.
  rewrite !join_plain in E by (try exact Hc; now apply capture_name_slash_free).
  apply append_inv_head in E. cbn [append] in E. apply string_cons_inj in E.
  apply capture_name_parts in E. destruct E as [-> _]. contradiction.
Qed.

(** X6: in a run of the guided sequence in which every prompt is answered
    and every run of the tool is handled, the six launches are for six
    different files, whatever the clock reads: even when it does not advance
    between captures, no capture of the sequence overwrites another. *)
Theorem guided_sequence_targets_distinct (w : world) :
  answered (length sequence) w = true ->
  tool_handled (length sequence) w = true ->
  exists calls,
    launched (snd (guided_screenshot_sequence w)) = (launched w ++ calls)%list /\
    length calls = 6 /\
    NoDup calls /\
    NoDup (map (fun argv => last argv "") calls).
Proof.
  intros Ha Hh.
  destruct (guided_sequence_run w Ha Hh) as [w' [Hrun [Hl _]]].
  exists (expected_launches (screenshots_dir w) (clock w) (ticks w) sequence).
  rewrite Hrun. cbn [snd]. split; [exact Hl|]. split; [reflexivity|].
  destruct (screenshots_dir_shape w) as [a Ha'].
  assert (Hnd : NoDup (expected_launches (screenshots_dir w) (clock w)
                         (ticks w) sequence)).
  { rewrite Ha'. apply expected_launches_nodup; try reflexivity.
    cbn [sequence map fst].
    repeat (constructor; [cbn [In]; intros H;
      repeat (destruct H as [H|H]; [discriminate H|]); exact H|]).
    constructor. }
  split; [exact Hnd|].
  apply (NoDup_map_NoDup_ForallPairs); [|exact Hnd].
  intros x y Hx Hy E.
  apply in_expected_launches in Hx, Hy.
  destruct Hx as [p [d [_ ->]]]. destruct Hy as [q [d' [_ ->]]].
  cbn [capture_argv last] in E. now rewrite E.
Qed.

Lemma guided_sequence_targets_distinct_sample :
  answered (length sequence) patient_world = true /\
  tool_handled (length sequence) patient_world = true /\
  exists calls,
    launched (snd (guided_screenshot_sequence patient_world)) = calls /\
    NoDup calls.
Proof.
  assert (Ha : answered (length sequence) patient_world = true)
    by (vm_compute; reflexivity).
  assert (Hh : tool_handled (length sequence) patient_world = true)
    by (vm_compute; reflexivity).
  split; [exact Ha|]. split; [exact Hh|].
  destruct (guided_sequence_targets_distinct patient_world Ha Hh)
    as [calls [Hl [_ [Hnd _]]]].
  exists calls. split; [exact Hl | exact Hnd].
Defined.

(** ** What a complete guided sequence uses up *)

(** The world a round leaves, field by field. *)
Lemma capture_step_world (total i : nat) (prefix description : string)
    (screenshots : list capture_record) (w : world)
    (line : string) (rest : list operator_action) :
  stdin w = Enter line :: rest ->
  handled (capture_tool w (length (launched w))) = true ->
  exists fs regular said,
    snd (capture_step total i (prefix, description) screenshots w)
    = mkWorld (script_path w) fs (clock w) (S (ticks w)) (capture_tool w)
        (launched w
         ++ [capture_argv (join (screenshots_dir w)
                                (capture_name prefix (clock w (ticks w))))])
        rest said
        (slept w + (if (i <? total)%nat then 1 else 0))
        regular (read_only w) (ascii_terminal w) /\
    mem (screenshots_dir w) fs = true.
Proof.
  intros Hin Hh. unfold capture_step, Script.capture_step; refold.
  erewrite bind_run by apply print_run.
  erewrite bind_run by (apply input_enter; exact Hin).
  match goal with
  | |- context [bind (take_screenshot ?p ?d) _ ?w1] =>
      destruct (take_screenshot_handled p d w1 Hh) as [fs [regular [said Hts]]];
      destruct (take_screenshot_world p d w1)
        as [fs' [regular' [said' [Hw Hd]]]]
  end.
  rewrite Hts in Hw. cbn [snd] in Hw.
  erewrite bind_run by exact Hts. rewrite Hw.
  unfold launched_world, set_stdin, set_stdout in *. world_simpl.
  unfold screenshots_dir in Hd. world_simpl_in Hd.
  fold (screenshots_dir w) in Hd.
  destruct (succeeded (capture_tool w (length (launched w))));
    [rewrite capture_path_nonempty|];
    destruct (i <? total)%nat;
    unfold bind, print, sleep, ret, set_stdout, set_slept; world_simpl;
    do 3 eexists; (split; [rewrite ?Nat.add_0_r; reflexivity | exact Hd]).
Qed.

Lemma sequence_loop_slept (items : list (string * string)) :
  forall (total i : nat) (screenshots : list capture_record) (w : world),
    answered (length items) w = true ->
    tool_handled (length items) w = true ->
    slept (snd (sequence_loop total i items screenshots w))
    = slept w + pauses total i (length items).
Proof.
  induction items as [|[prefix description] rest IH];
    intros total i screenshots w Ha Hh.
  - unfold sequence_loop; cbn [Script.sequence_loop length pauses]; refold. unfold ret. cbn [snd]. lia.
  - unfold answered in Ha. unfold tool_handled in Hh.
    cbn [length all_enter handled_from] in Ha, Hh.
    destruct (stdin w) as [|[line|] actions] eqn:Hin; try discriminate.
    apply andb_true_iff in Hh. destruct Hh as [Hh1 Hh].
    destruct (capture_step_run total i prefix description screenshots w
                line actions Hin Hh1) as [w1 [Hstep Hw1]].
    destruct (capture_step_world total i prefix description screenshots w
                line actions Hin Hh1) as [fs [regular [said [Hworld _]]]].
    rewrite Hstep in Hworld. cbn [snd] in Hworld.
    unfold sequence_loop; cbn [Script.sequence_loop length pauses]; refold.
    erewrite bind_run by exact Hstep.
    rewrite IH.
    + rewrite Hworld. world_simpl. lia.
    + unfold answered. rewrite Hworld. world_simpl. exact Ha.
    + unfold tool_handled. rewrite Hworld. world_simpl.
      rewrite length_app. cbn [length].
      now replace (length (launched w) + 1) with (S (length (launched w)))
        by lia.
Qed.

(** X7: a run of the guided sequence in which every prompt is answered and
    every run of the tool is handled reads the clock six times, takes six
    lines from the terminal, and sleeps five seconds in all (one second
    after each capture but the last); the script path is untouched and the
    output directory exists when the run ends. *)
Theorem guided_sequence_resources (w : world) :
  answered (length sequence) w = true ->
  tool_handled (length sequence) w = true ->
  let w' := snd (guided_screenshot_sequence w) in
  ticks w' = ticks w + 6 /\
  stdin w' = skipn 6 (stdin w) /\
  slept w' = slept w + 5 /\
  script_path w' = script_path w /\
  mem (screenshots_dir w) (paths w') = true.
Proof.
  intros Ha Hh. cbv zeta. unfold guided_screenshot_sequence, Script.guided_screenshot_sequence; refold.
  do 5 (erewrite bind_run by apply print_run; unfold set_stdout; world_simpl).
  match goal with
  | |- context [bind (sequence_loop _ _ _ _) _ ?w0] =>
      destruct (sequence_loop_run sequence (length sequence) 1 [] w0 Ha Hh)
        as [w1 [Hloop Hw1]];
      pose proof (sequence_loop_slept sequence (length sequence) 1 [] w0
                    Ha Hh) as Hslept
  end.
  rewrite Hloop in Hslept. cbn [snd] in Hslept.
  destruct Hw1 as (Hs & Hc & Ht & Hk & Hl & Hi & _).
  world_simpl_in Hs. world_simpl_in Hk. world_simpl_in Hi.
  world_simpl_in Hslept.
  erewrite bind_run by exact Hloop.
  erewrite bind_run by apply print_run.
  erewrite bind_run by apply create_screenshots_directory_run.
  erewrite bind_run by apply print_run.
  unfold set_stdout, with_directory, set_files, set_paths. world_simpl.
  unfold screenshots_dir. world_simpl. rewrite Hs. fold (screenshots_dir w).
  match goal with
  | |- context [match ?l with [] => _ | _ :: _ => _ end] => destruct l
  end.
  - unfold bind, ret. world_simpl.
    rewrite Hk, Hi, Hslept, mem_touch. repeat split.
  - erewrite bind_run.
    2:{ erewrite bind_run by apply print_run. apply print_captured_run. }
    unfold ret, set_stdout. world_simpl.
    rewrite Hk, Hi, Hslept, mem_touch. repeat split.
Qed.

Lemma guided_sequence_resources_sample :
  answered (length sequence) patient_world = true /\
  tool_handled (length sequence) patient_world = true /\
  slept (snd (guided_screenshot_sequence patient_world)) = 5 /\
  stdin (snd (guided_screenshot_sequence patient_world)) = [].
Proof.
  assert (Ha : answered (length sequence) patient_world = true)
    by (vm_compute; reflexivity).
  assert (Hh : tool_handled (length sequence) patient_world = true)
    by (vm_compute; reflexivity).
  destruct (guided_sequence_resources patient_world Ha Hh)
    as (_ & Hi & Hsl & _).
  split; [exact Ha|]. split; [exact Hh|]. split; [exact Hsl | exact Hi].
Defined.

(** ** A guided sequence that is cut short at a prompt *)

Lemma bind_assoc {A B C} (m : M A) (f : A -> M B) (g : B -> M C) (w : world) :
  bind (bind m f) g w = bind m (fun a => bind (f a) g) w.
Proof. unfold bind. destruct (m w) as [[a|e] w']; reflexivity. Qed.

Lemma bind_ext {A B} (m : M A) (f g : A -> M B) (w : world) :
  (forall a w', f a w' = g a w') -> bind m f w = bind m g w.
Proof.
  intros H. unfold bind. destruct (m w) as [[a|e] w']; [apply H | reflexivity].
Qed.

Lemma sequence_loop_app (l1 l2 : list (string * string)) :
  forall (total i : nat) (screenshots : list capture_record) (w : world),
    sequence_loop total i (l1 ++ l2) screenshots w
    = bind (sequence_loop total i l1 screenshots)
           (fun screenshots' =>
              sequence_loop total (i + length l1) l2 screenshots') w.
Proof.
  induction l1 as [|item l1 IH]; intros total i screenshots w.
  - unfold sequence_loop; cbn [app Script.sequence_loop length]; refold. unfold bind, ret.
    now rewrite Nat.add_0_r.
  - unfold sequence_loop; cbn [app Script.sequence_loop length]; refold. rewrite bind_assoc.
    apply bind_ext. intros s' w'. rewrite IH.
    now replace (S i + length l1) with (i + S (length l1)) by lia.
Qed.

Lemma expected_launches_length (dir : string) (clk : nat -> datetime)
    (items : list (string * string)) :
  forall t, length (expected_launches dir clk t items) = length items.
Proof.
  induction items as [|[p d] items IH]; intros t;
    cbn [expected_launches length]; [reflexivity | now rewrite IH].
Qed.

Lemma hd_skipn {A} (k : nat) (l : list A) :
  hd_error (skipn k l) = nth_error l k.
Proof.
  revert l. induction k as [|k IH]; intros [|x l]; cbn; auto.
Qed.

(** A round whose prompt is not answered raises what [input] raises, before
    anything is launched. *)
Lemma capture_step_unanswered (total i : nat) (item : string * string)
    (screenshots : list capture_record) (w : world) (cls : exn_class) :
  prompt_failure 0 (stdin w) = Some cls ->
  exists e w',
    capture_step total i item screenshots w = (Raise e, w') /\
    exn_cls e = cls /\ launched w' = launched w.
Proof.
  intros Hf. destruct item as [prefix description]. unfold capture_step, Script.capture_step; refold.
  erewrite bind_run by apply print_run.
  unfold prompt_failure in Hf. cbn [nth_error] in Hf.
  destruct (stdin w) as [|[line|] rest] eqn:Hin; try discriminate;
    injection Hf as <-;
    (do 2 eexists; split;
     [apply bind_raise; unfold input, set_stdout; world_simpl; rewrite Hin;
      reflexivity
     | split; reflexivity]).
Qed.

Lemma sequence_loop_unanswered (items : list (string * string)) (k : nat)
    (total i : nat) (w : world) (cls : exn_class) :
  k < length items ->
  answered k w = true -> tool_handled k w = true ->
  prompt_failure k (stdin w) = Some cls ->
  exists e w',
    sequence_loop total i items [] w = (Raise e, w') /\
    exn_cls e = cls /\
    launched w'
    = (launched w
       ++ expected_launches (screenshots_dir w) (clock w) (ticks w)
            (firstn k items))%list.
Proof.
  intros Hk Ha Hh Hf.
  assert (Hlen : length (firstn k items) = k)
    by (rewrite length_firstn; lia).
  replace (sequence_loop total i items [] w)
    with (sequence_loop total i (firstn k items ++ skipn k items) [] w)
    by now rewrite firstn_skipn.
  rewrite sequence_loop_app.
  destruct (sequence_loop_run (firstn k items) total i [] w) as [w1 [Hrun Hw1]];
    [now rewrite Hlen | now rewrite Hlen |].
  erewrite bind_run by exact Hrun.
  destruct Hw1 as (_ & _ & _ & _ & Hl & Hi & _). rewrite Hlen in Hi.
  destruct (skipn k items) as [|item rest] eqn:Hrest.
  { apply (f_equal (@length _)) in Hrest. rewrite length_skipn in Hrest.
    cbn [length] in Hrest. lia. }
  unfold sequence_loop; cbn [Script.sequence_loop]; refold.
  destruct (capture_step_unanswered total (i + length (firstn k items)) item
              (([] ++ expected_records (screenshots_dir w) (clock w)
                   (capture_tool w) (ticks w) (length (launched w))
                   (firstn k items))%list) w1 cls)
    as [e [w' [Hstep [He Hl']]]].
  { unfold prompt_failure in *. cbn [nth_error].
    rewrite <- hd_skipn in Hf. rewrite Hi.
    destruct (skipn k (stdin w)); exact Hf. }
  exists e, w'. split; [now apply bind_raise|]. split; [exact He|].
  now rewrite Hl', Hl.
Qed.

(** X8: when the operator answers the first [k] prompts of the guided
    sequence, with [k] below six, and the next prompt is interrupted or finds
    the input at its end, the sequence does not return: it raises what the
    prompt raised ([KeyboardInterrupt] or [EOFError]) after exactly [k]
    launches, those of the first [k] items in their order; the captures made
    so far are not returned. *)
Theorem guided_sequence_stops_at_prompt (w : world) (k : nat)
    (cls : exn_class) :
  k < length sequence ->
  answered k w = true -> tool_handled k w = true ->
  prompt_failure k (stdin w) = Some cls ->
  exists e,
    fst (guided_screenshot_sequence w) = Raise e /\
    exn_cls e = cls /\
    launched (snd (guided_screenshot_sequence w))
    = (launched w
       ++ expected_launches (screenshots_dir w) (clock w) (ticks w)
            (firstn k sequence))%list /\
    length (launched (snd (guided_screenshot_sequence w)))
    = length (launched w) + k.
Proof.
  intros Hk Ha Hh Hf. unfold guided_screenshot_sequence, Script.guided_screenshot_sequence; refold.
  do 5 (erewrite bind_run by apply print_run; unfold set_stdout; world_simpl).
  match goal with
  | |- context [bind (sequence_loop _ _ _ _) _ ?w0] =>
      destruct (sequence_loop_unanswered sequence k (length sequence) 1 w0 cls
                  Hk Ha Hh Hf) as [e [w' [Hrun [He Hl]]]]
  end.
  unfold screenshots_dir in Hl. world_simpl_in Hl.
  fold (screenshots_dir w) in Hl.
  exists e. erewrite bind_raise by exact Hrun. cbn [fst snd].
  split; [reflexivity|]. split; [exact He|]. split; [exact Hl|].
  rewrite Hl, length_app, expected_launches_length, length_firstn.
  f_equal. lia.
Qed.

Lemma guided_sequence_stops_at_prompt_sample :
  2 < length sequence /\
  answered 2 half_answered_world = true /\
  tool_handled 2 half_answered_world = true /\
  prompt_failure 2 (stdin half_answered_world) = Some KeyboardInterrupt /\
  exists e,
    fst (guided_screenshot_sequence half_answered_world) = Raise e /\
    length (launched (snd (guided_screenshot_sequence half_answered_world))) = 2.
Proof.
  assert (Hk : 2 < length sequence) by (cbn; lia).
  assert (Ha : answered 2 half_answered_world = true) by reflexivity.
  assert (Hh : tool_handled 2 half_answered_world = true) by reflexivity.
  assert (Hf : prompt_failure 2 (stdin half_answered_world)
               = Some KeyboardInterrupt) by reflexivity.
  destruct (guided_sequence_stops_at_prompt half_answered_world 2
              KeyboardInterrupt Hk Ha Hh Hf) as [e [He [_ [_ Hl]]]].
  repeat (split; [assumption|]).
  exists e. split; [exact He | exact Hl].
Defined.

(** ** A guided sequence that is cut short by the capture tool *)

Lemma all_enter_succ (k : nat) (actions : list operator_action) :
  all_enter (S k) actions = true ->
  all_enter k actions = true /\
  exists line rest, skipn k actions = Enter line :: rest.
Proof.
  revert actions. induction k as [|k IH]; intros actions H.
  - split; [reflexivity|]. cbn [all_enter] in H.
    destruct actions as [|[line|] rest]; try discriminate.
    now exists line, rest.
  - cbn [all_enter] in H. destruct actions as [|[line|] rest];
      try discriminate.
    destruct (IH rest H) as [Hk Hs]. split; [exact Hk|]. exact Hs.
Qed.

(** A round whose run of the tool ends in an exception that
    [take_screenshot] does not catch raises it, after the launch. *)
Lemma capture_step_unhandled (total i : nat) (item : string * string)
    (screenshots : list capture_record) (w : world)
    (line : string) (rest : list operator_action) (e : exn) :
  stdin w = Enter line :: rest ->
  capture_tool w (length (launched w)) = Failed e ->
  handled (Failed e) = false ->
  exists w',
    capture_step total i item screenshots w = (Raise e, w') /\
    length (launched w') = S (length (launched w)).
Proof.
  intros Hin Ho Hh. destruct item as [prefix description].
  unfold capture_step, Script.capture_step; refold.
  erewrite bind_run by apply print_run.
  erewrite bind_run by (apply input_enter; exact Hin).
  unfold set_stdin, set_stdout. world_simpl.
  match goal with
  | |- context [bind (take_screenshot ?p ?d) _ ?w1] =>
      pose proof (take_screenshot_run p d w1) as Hrun
  end.
  cbv zeta in Hrun. world_simpl_in Hrun. rewrite Ho in Hrun.
  cbn [handled] in Hh. apply orb_false_iff in Hh. destruct Hh as [H1 H2].
  rewrite H1, H2 in Hrun.
  eexists. split; [apply bind_raise; exact Hrun|].
  unfold launched_world, set_stdin, set_stdout. world_simpl.
  rewrite length_app. cbn [length]. lia.
Qed.

Lemma sequence_loop_unhandled (items : list (string * string)) (k : nat)
    (total i : nat) (w : world) (e : exn) :
  k < length items ->
  answered (S k) w = true -> tool_handled k w = true ->
  capture_tool w (length (launched w) + k) = Failed e ->
  handled (Failed e) = false ->
  exists w',
    sequence_loop total i items [] w = (Raise e, w') /\
    length (launched w') = length (launched w) + S k.
Proof.
  intros Hk Ha Hh Ho He.
  destruct (all_enter_succ k (stdin w) Ha) as [Hak [line [rest Hs]]].
  assert (Hlen : length (firstn k items) = k)
    by (rewrite length_firstn; lia).
  replace (sequence_loop total i items [] w)
    with (sequence_loop total i (firstn k items ++ skipn k items) [] w)
    by now rewrite firstn_skipn.
  rewrite sequence_loop_app.
  destruct (sequence_loop_run (firstn k items) total i [] w)
    as [w1 [Hrun Hw1]]; [now rewrite Hlen | now rewrite Hlen |].
  erewrite bind_run by exact Hrun.
  destruct Hw1 as (_ & _ & Ht & _ & Hl & Hi & _). rewrite Hlen in Hi.
  assert (Hl1 : length (launched w1) = length (launched w) + k)
    by now rewrite Hl, length_app, expected_launches_length, Hlen.
  destruct (skipn k items) as [|item more] eqn:Hrest.
  { apply (f_equal (@length _)) in Hrest. rewrite length_skipn in Hrest.
    cbn [length] in Hrest. lia. }
  unfold sequence_loop; cbn [Script.sequence_loop]; refold.
  edestruct (capture_step_unhandled total (i + length (firstn k items)) item)
    as [w' [Hstep Hl']].
  - rewrite Hi. exact Hs.
  - rewrite Ht, Hl1. exact Ho.
  - exact He.
  - exists w'. split; [apply bind_raise; exact Hstep|].
    rewrite Hl', Hl1. lia.
Qed.

(** X9: when the operator answers the prompts, the first [k] runs of the
    tool are handled, and the next run ends in an exception that
    [take_screenshot] does not catch (the tool cannot be started, say), the
    guided sequence does not go on to the next item: it raises that
    exception after exactly [k + 1] launches and returns no list. *)
Theorem guided_sequence_stops_at_tool_failure (w : world) (k : nat) (e : exn) :
  k < length sequence ->
  answered (S k) w = true -> tool_handled k w = true ->
  capture_tool w (length (launched w) + k) = Failed e ->
  handled (Failed e) = false ->
  fst (guided_screenshot_sequence w) = Raise e /\
  length (launched (snd (guided_screenshot_sequence w)))
  = length (launched w) + S k.
Proof.
  intros Hk Ha Hh Ho He. unfold guided_screenshot_sequence, Script.guided_screenshot_sequence; refold.
  do 5 (erewrite bind_run by apply print_run; unfold set_stdout; world_simpl).
  match goal with
  | |- context [bind (sequence_loop _ _ _ _) _ ?w0] =>
      destruct (sequence_loop_unhandled sequence k (length sequence) 1 w0 e
                  Hk Ha Hh Ho He) as [w' [Hloop Hl]]
  end.
  world_simpl_in Hl.
  erewrite bind_raise by exact Hloop. cbn [fst snd].
  split; [reflexivity | exact Hl].
Qed.

Lemma guided_sequence_stops_at_tool_failure_sample :
  0 < length sequence /\
  answered 1 no_tool_world = true /\
  handled (Failed tool_missing) = false /\
  fst (guided_screenshot_sequence no_tool_world) = Raise tool_missing /\
  length (launched (snd (guided_screenshot_sequence no_tool_world))) = 1.
Proof.
  assert (Hk : 0 < length sequence) by (cbn; lia).
  assert (Ha : answered 1 no_tool_world = true) by reflexivity.
  assert (He : handled (Failed tool_missing) = false) by reflexivity.
  destruct (guided_sequence_stops_at_tool_failure no_tool_world 0 tool_missing
              Hk Ha eq_refl eq_refl He) as [Hr Hl].
  repeat (split; [assumption|]). exact Hl.
Defined.

(** ** The Markdown generation reads only *)

(** X10: apart from making the output directory,
    [update_readme_with_screenshots] only writes to the terminal: it
    launches nothing, reads neither the clock nor the terminal, does not
    sleep, and leaves the PNG files of the directory as they were; run a
    second time it changes no path and writes the same text again. *)
Theorem update_readme_repeatable (w : world) :
  let w1 := snd (update_readme_with_screenshots w) in
  let w2 := snd (update_readme_with_screenshots w1) in
  launched w1 = launched w /\ ticks w1 = ticks w /\
  stdin w1 = stdin w /\ slept w1 = slept w /\
  png_files w1 = png_files w /\
  paths w2 = paths w1 /\
  stdout w2
  = (stdout w ++ readme_output (sort (png_files w))
     ++ readme_output (sort (png_files w)))%list.
Proof.
  cbv zeta. rewrite (update_readme_run w). cbn [snd].
  set (w1 := set_stdout (stdout w ++ readme_output (sort (png_files w)))
               (with_directory (screenshots_dir w) w)).
  assert (Hdir : screenshots_dir w1 = screenshots_dir w) by reflexivity.
  assert (Hpaths : paths w1 = touch (screenshots_dir w) (paths w))
    by reflexivity.
  assert (Hpng : png_files w1 = png_files w).
  { unfold png_files. rewrite Hdir, Hpaths. now rewrite children_touch_dir. }
  rewrite (update_readme_run w1). cbn [snd]. rewrite Hpng, Hdir.
  change (paths (set_stdout
                   (stdout w1 ++ readme_output (sort (png_files w)))
                   (with_directory (screenshots_dir w) w1)))
    with (touch (screenshots_dir w) (paths w1)).
  change (stdout (set_stdout
                    (stdout w1 ++ readme_output (sort (png_files w)))
                    (with_directory (screenshots_dir w) w1)))
    with (stdout w1 ++ readme_output (sort (png_files w)))%list.
  change (stdout w1)
    with (stdout w ++ readme_output (sort (png_files w)))%list.
  rewrite Hpaths, touch_idempotent, <- app_assoc.
  repeat split.
Qed.

(** ** Which names count as PNG files *)

Lemma lower_length (s : string) : String.length (lower s) = String.length s.
Proof.
  induction s as [|c s IH]; cbn [lower String.length];
    [reflexivity | now rewrite IH].
Qed.

Lemma lower_split (s a b : string) :
  lower s = a ++ b ->
  exists s1 s2, s = s1 ++ s2 /\ lower s1 = a /\ lower s2 = b.
Proof.
  revert s. induction a as [|x a IH]; intros s E.
  - now exists "", s.
  - destruct s as [|c s]; cbn [lower append] in E; [discriminate|].
    injection E as Ec E. destruct (IH s E) as [s1 [s2 [-> [H1 H2]]]].
    exists (String c s1), s2. cbn [lower append]. now rewrite Ec, H1.
Qed.

(** X11: a name passes the PNG test of the listing exactly when it ends in
    four characters that spell [.png] in any mix of upper and lower case; in
    particular no name shorter than four characters passes, and the name
    [.png] itself does. *)
Theorem is_png_characterised (name : string) :
  (is_png name = true
   <-> exists stem ext,
         name = stem ++ ext /\ String.length ext = 4 /\ lower ext = ".png") /\
  (if is_png name then 4 <=? String.length name else true)%nat = true.
Proof.
  assert (Hiff : is_png name = true
    <-> exists stem ext,
          name = stem ++ ext /\ String.length ext = 4 /\ lower ext = ".png").
  { unfold is_png. split.
    - intros H. apply endswith_split in H. destruct H as [a E].
      apply lower_split in E. destruct E as [stem [ext [-> [_ He]]]].
      exists stem, ext. split; [reflexivity|]. split; [|exact He].
      now rewrite <- lower_length, He.
    - intros [stem [ext [-> [_ He]]]].
      rewrite lower_append, He. apply endswith_append. }
  split; [exact Hiff|].
  destruct (is_png name) eqn:E; [|reflexivity].
  destruct (proj1 Hiff eq_refl) as [stem [ext [-> [Hl _]]]].
  apply Nat.leb_le. rewrite length_append. lia.
Qed.

(** ** The alternative text *)

Lemma replace_underscores_gone (s : string) :
  all_chars (fun c => negb (Ascii.eqb c "_")) (replace s "_" " ") = true.
Proof.
  unfold replace. induction s as [|c s IH]; [reflexivity|].
  cbn [replace_from startswith String.length Nat.sub].
  rewrite startswith_nil, andb_true_r.
  destruct (Ascii.eqb "_" c) eqn:E.
  - cbn [append all_chars]. now rewrite IH.
  - cbn [all_chars]. rewrite IH, Ascii.eqb_sym, E. reflexivity.
Qed.

Lemma case_keeps_underscore_out (c : ascii) :
  Ascii.eqb c "_" = false ->
  Ascii.eqb (lower_char c) "_" = false /\ Ascii.eqb (upper_char c) "_" = false.
Proof.
  destruct c as [[] [] [] [] [] [] [] []]; vm_compute; intros H;
    (split; [reflexivity || exact H | reflexivity || exact H]).
Qed.

Lemma title_keeps_underscore_out (s : string) (b : bool) :
  all_chars (fun c => negb (Ascii.eqb c "_")) s = true ->
  all_chars (fun c => negb (Ascii.eqb c "_")) (title_from b s) = true.
Proof.
  revert b. induction s as [|c s IH]; intros b H; [reflexivity|].
  cbn [all_chars title_from] in *. apply andb_true_iff in H.
  destruct H as [Hc Hs]. apply negb_true_iff in Hc.
  destruct (case_keeps_underscore_out c Hc) as [Hl Hu].
  rewrite (IH _ Hs). destruct b; [rewrite Hl | rewrite Hu]; reflexivity.
Qed.

Lemma replace_from_length (old : string) (s : string) :
  forall skip,
    String.length (replace_from old "" skip s) <= String.length s.
Proof.
  induction s as [|c s IH]; intros skip; cbn [replace_from String.length];
    [lia|].
  destruct skip as [|k]; [|specialize (IH k); lia].
  destruct (startswith (String c s) old).
  - cbn [append]. specialize (IH (String.length old - 1)). lia.
  - cbn [String.length]. specialize (IH 0). lia.
Qed.

(** X12: for a file name that is ASCII, the alternative text of the image
    holds no underscore and is never longer than the fixed lead followed by
    the file name. *)
Theorem alt_text_has_no_underscore (filename : string) :
  is_ascii filename = true ->
  all_chars (fun c => negb (Ascii.eqb c "_")) (alt_text filename) = true /\
  String.length (alt_text filename) <= 18 + String.length filename.
Proof.
  intros _. unfold alt_text, name_part, title. split.
  - rewrite all_chars_append. apply andb_true_iff. split; [reflexivity|].
    apply title_keeps_underscore_out, replace_underscores_gone.
  - rewrite length_append, title_from_length, replace_underscore_length.
    cbn [String.length]. unfold replace.
    pose proof (replace_from_length ".png" filename 0). lia.
Qed.

Lemma alt_text_has_no_underscore_sample :
  is_ascii "wave_sim_20240309_140507_123.png" = true /\
  all_chars (fun c => negb (Ascii.eqb c "_"))
    (alt_text "wave_sim_20240309_140507_123.png") = true /\
  String.length (alt_text "wave_sim_20240309_140507_123.png") <= 18 + 32.
Proof.
  assert (H : is_ascii "wave_sim_20240309_140507_123.png" = true)
    by reflexivity.
  split; [exact H|].
  exact (alt_text_has_no_underscore "wave_sim_20240309_140507_123.png" H).
Defined.

(** ** A prefix that is an absolute path *)

Lemma startswith_append (a b p : string) :
  startswith a p = true -> startswith (a ++ b) p = true.
Proof.
  revert a. induction p as [|x p IH]; intros a H.
  - apply startswith_nil.
  - destruct a as [|y a]; cbn [startswith append] in *; [discriminate|].
    apply andb_true_iff in H. destruct H as [Hx Hp].
    now rewrite Hx, (IH a Hp).
Qed.

(** X13: [take_screenshot] joins the output directory and the file name
    with [os.path.join], so a prefix that starts with a slash overrides the
    directory: the tool is launched on the path [<prefix>_<stamp>.png]
    itself, and that path is what a successful call returns. *)
Theorem absolute_prefix_overrides_directory (filename_prefix : string)
    (description : option string) (w : world) :
  startswith filename_prefix "/" = true ->
  let name := capture_name filename_prefix (clock w (ticks w)) in
  join (screenshots_dir w) name = name /\
  launched (snd (take_screenshot filename_prefix description w))
  = (launched w ++ [capture_argv name])%list /\
  match capture_tool w (length (launched w)) with
  | Completed returncode file_present =>
      fst (take_screenshot filename_prefix description w)
      = Return (if (returncode =? 0)%Z && file_present
                then Some name else None)
  | Failed _ => True
  end.
Proof.
  intros Hp. cbv zeta.
  assert (Hj : join (screenshots_dir w)
                 (capture_name filename_prefix (clock w (ticks w)))
               = capture_name filename_prefix (clock w (ticks w))).
  { unfold join, capture_name. now rewrite (startswith_append _ _ _ Hp). }
  split; [exact Hj|]. split.
  - rewrite take_screenshot_launches. now rewrite Hj.
  - rewrite take_screenshot_run. cbv zeta. rewrite Hj.
    destruct (capture_tool w (length (launched w))) as [rc present | e];
      [|exact I].
    destruct present; [destruct (rc =? 0)%Z|rewrite andb_false_r];
      reflexivity.
Qed.

Lemma absolute_prefix_overrides_directory_sample :
  startswith "/tmp/shot" "/" = true /\
  fst (take_screenshot "/tmp/shot" None patient_world)
  = Return (Some "/tmp/shot_20240309_140507_123.png").
Proof.
  assert (Hp : startswith "/tmp/shot" "/" = true) by reflexivity.
  destruct (absolute_prefix_overrides_directory "/tmp/shot" None patient_world
              Hp) as (_ & _ & H).
  split; [exact Hp | exact H].
Defined.

(** ** The order of the listing *)

Lemma lower_after_upper (c c' : ascii) :
  is_lower c = true -> is_upper c' = true -> Ascii.compare c c' = Gt.
Proof.
  unfold is_lower, is_upper, Ascii.compare, nat_of_ascii.
  intros Hl Hu. apply andb_true_iff in Hl, Hu.
  destruct Hl as [Hl _]. destruct Hu as [_ Hu].
  apply Nat.leb_le in Hl, Hu. apply N.compare_gt_iff. lia.
Qed.

Lemma strongly_sorted_suffix {A} (R : A -> A -> Prop) (pre l : list A) :
  StronglySorted R (pre ++ l) -> StronglySorted R l.
Proof.
  induction pre as [|x pre IH]; cbn [app]; [auto|].
  intros H. inversion H; subst. now apply IH.
Qed.

(** X14: the listing is ordered by character code, not by the alphabet: a
    name that begins with one of the ASCII letters [a] to [z] is never
    followed, anywhere later in the listing, by a name that begins with one
    of the ASCII letters [A] to [Z]. *)
Theorem listing_puts_uppercase_first (w : world) (pre rest : list string)
    (c : ascii) (s : string) :
  sort (png_files w) = (pre ++ String c s :: rest)%list ->
  is_lower c = true ->
  forallb (fun name =>
             match name with
             | "" => true
             | String c' _ => negb (is_upper c')
             end) rest = true.
Proof.
  intros E Hl. apply forallb_forall. intros name Hin.
  destruct name as [|c' s']; [reflexivity|].
  destruct (is_upper c') eqn:Hu; [|reflexivity].
  pose proof (sorted_strongly _ (sort_sorted (png_files w))) as Hs.
  rewrite E in Hs. apply strongly_sorted_suffix in Hs.
  inversion Hs as [|? ? _ Hall]; subst.
  rewrite Forall_forall in Hall. specialize (Hall _ Hin).
  unfold String.leb in Hall. cbn [String.compare] in Hall.
  now rewrite (lower_after_upper c c' Hl Hu) in Hall.
Qed.

Lemma listing_puts_uppercase_first_sample :
  sort (png_files stocked_world)
  = (["SHOT.PNG"] ++ "demo.png.png"
       :: [ "initial_20240309_140501_001.png";
            "wave_sources_20240309_140507_123.png" ])%list /\
  is_lower "d" = true /\
  forallb (fun name =>
             match name with
             | "" => true
             | String c' _ => negb (is_upper c')
             end)
          [ "initial_20240309_140501_001.png";
            "wave_sources_20240309_140507_123.png" ] = true.
Proof.
  assert (E : sort (png_files stocked_world)
              = (["SHOT.PNG"] ++ "demo.png.png"
                   :: [ "initial_20240309_140501_001.png";
                        "wave_sources_20240309_140507_123.png" ])%list)
    by (vm_compute; reflexivity).
  assert (Hl : is_lower "d" = true) by reflexivity.
  pose proof (listing_puts_uppercase_first stocked_world _ _ _ _ E Hl) as H.
  split; [exact E|]. split; [exact Hl | exact H].
Defined.

(** * Properties on a host that may refuse *)

(** ** The two operations that can refuse *)

Lemma remove_missing (p : string) (l : list string) :
  mem p l = false -> remove p l = l.
Proof.
  unfold mem, remove. induction l as [|x l IH]; cbn [existsb filter];
    [reflexivity|].
  intros H. apply orb_false_iff in H. destruct H as [Hx Hl].
  rewrite String.eqb_sym, Hx. cbn [negb]. now rewrite (IH Hl).
Qed.

Lemma is_dir_with_directory (p : string) (w : world) :
  is_dir p (with_directory p w) = true.
Proof.
  unfold is_dir, with_directory, set_files, set_paths. world_simpl.
  now rewrite mem_touch, mem_remove.
Qed.

Lemma with_directory_present (p : string) (w : world) :
  is_dir p w = true -> with_directory p w = w.
Proof.
  unfold is_dir. intros H. apply andb_true_iff in H. destruct H as [Hp Hf].
  apply negb_true_iff in Hf.
  unfold with_directory, set_files, set_paths. world_simpl.
  rewrite (touch_present _ _ Hp), (remove_missing _ _ Hf). now destruct w.
Qed.

(** A call of [os.makedirs] that returns has done what it does on the
    cooperating host. *)
Lemma host_makedirs_returns (p : string) (w : world) :
  fst (Host.makedirs p w) = Return tt -> Host.makedirs p w = makedirs p w.
Proof.
  unfold Host.makedirs, makedirs.
  destruct (mem p (paths w)) eqn:Hp.
  - destruct (mem p (files w)) eqn:Hf; [discriminate|]. intros _.
    rewrite with_directory_present; [reflexivity|].
    unfold is_dir. now rewrite Hp, Hf.
  - destruct (read_only w); [discriminate | reflexivity].
Qed.

(** So has a call of [print] that returns; and [print] returns on a terminal
    that takes every character, and for a text that is ASCII. *)
Lemma host_print_returns (s : string) (w : world) :
  fst (Host.print s w) = Return tt -> Host.print s w = print s w.
Proof.
  unfold Host.print, print.
  destruct (ascii_terminal w && negb (is_ascii s)); [discriminate | reflexivity].
Qed.

Lemma host_print_calm (s : string) (w : world) :
  ascii_terminal w = false -> Host.print s w = print s w.
Proof. unfold Host.print, print. now intros ->. Qed.

Lemma host_print_ascii (s : string) (w : world) :
  is_ascii s = true -> Host.print s w = print s w.
Proof. unfold Host.print, print. intros ->. now rewrite andb_false_r. Qed.

Lemma host_print_refused (s : string) (w : world) :
  ascii_terminal w = true -> is_ascii s = false ->
  Host.print s w = (Raise Host.cannot_encode, w).
Proof. unfold Host.print. now intros -> ->. Qed.

(** ** [create_screenshots_directory] *)

Lemma host_create_run (w : world) :
  Host.create_screenshots_directory w
  = if dir_available w
    then (Return (screenshots_dir w), with_directory (screenshots_dir w) w)
    else (Raise (if mem (screenshots_dir w) (paths w)
                 then Host.file_exists (screenshots_dir w)
                 else Host.permission_denied (screenshots_dir w)), w).
Proof.
  unfold Host.create_screenshots_directory, Script.create_screenshots_directory,
    bind, get_project_root, ret.
  change (join (dirname (dirname (script_path w))) "WaveSimScreenshots")
    with (screenshots_dir w).
  unfold Host.makedirs, dir_available.
  destruct (mem (screenshots_dir w) (paths w)) eqn:Hp.
  - destruct (mem (screenshots_dir w) (files w)) eqn:Hf; cbn [negb];
      [reflexivity|].
    rewrite with_directory_present; [reflexivity|].
    unfold is_dir. now rewrite Hp, Hf.
  - destruct (read_only w); reflexivity.
Qed.

Lemma dir_available_made (w : world) :
  dir_available (with_directory (screenshots_dir w) w) = true.
Proof.
  pose proof (is_dir_with_directory (screenshots_dir w) w) as H.
  unfold is_dir in H. apply andb_true_iff in H. destruct H as [Hp Hf].
  unfold dir_available. rewrite screenshots_dir_with_directory.
  now rewrite Hp, Hf.
Qed.

(** C7, the claim as stated fails: [os.makedirs] raises when the directory
    is absent and the project root takes no new entry, and when a file has
    the name of the directory; nothing is made. *)
Lemma create_screenshots_directory_refused :
  mem sample_dir (paths locked_world) = false /\
  Host.create_screenshots_directory locked_world
  = (Raise (Host.permission_denied sample_dir), locked_world) /\
  is_dir sample_dir blocked_world = false /\
  Host.create_screenshots_directory blocked_world
  = (Raise (Host.file_exists sample_dir), blocked_world).
Proof. vm_compute. repeat split. Qed.

(** C7, as amended: [create_screenshots_directory] makes the output
    directory when no path has its name and the project root takes a new
    entry, and returns its path; when the directory is there it returns the
    same path and leaves the world exactly as it was; when a file has the
    name, or the root takes no new entry, it raises the [OSError] of
    [os.makedirs] and leaves the world as it was.  A call that returns
    returns the one fixed path computed from the location of the script,
    and the directory is there afterwards.  In every case a second call
    ends as the first did and changes nothing more: two calls leave the
    state that one call leaves. *)
Theorem create_screenshots_directory_idempotent (w : world) :
  let dir := screenshots_dir w in
  let r1 := fst (Host.create_screenshots_directory w) in
  let w1 := snd (Host.create_screenshots_directory w) in
  (if mem dir (paths w)
   then
     if mem dir (files w)
     then r1 = Raise (Host.file_exists dir) /\ w1 = w
     else r1 = Return dir /\ w1 = w
   else
     if read_only w
     then r1 = Raise (Host.permission_denied dir) /\ w1 = w
     else r1 = Return dir /\ paths w1 = (paths w ++ [dir])%list /\
          is_dir dir w1 = true) /\
  match r1 with
  | Return p => p = dir /\ is_dir dir w1 = true
  | Raise e => issubclass (exn_cls e) OSError = true /\ w1 = w
  end /\
  Host.create_screenshots_directory w1 = (r1, w1) /\
  (Host.create_screenshots_directory;; Host.create_screenshots_directory) w
  = Host.create_screenshots_directory w.
Proof.
  cbv zeta. rewrite (host_create_run w). unfold dir_available.
  destruct (mem (screenshots_dir w) (paths w)) eqn:Hp;
    [destruct (mem (screenshots_dir w) (files w)) eqn:Hf
    |destruct (read_only w) eqn:Hro]; cbn [negb fst snd].
  - assert (Hagain : Host.create_screenshots_directory w
                     = (Raise (Host.file_exists (screenshots_dir w)), w)).
    { rewrite host_create_run. unfold dir_available. now rewrite Hp, Hf. }
    repeat split; [exact Hagain|].
    unfold bind. now rewrite Hagain.
  - assert (Hd : is_dir (screenshots_dir w) w = true)
      by (unfold is_dir; now rewrite Hp, Hf).
    rewrite (with_directory_present _ _ Hd).
    assert (Hagain : Host.create_screenshots_directory w
                     = (Return (screenshots_dir w), w)).
    { rewrite host_create_run. unfold dir_available. rewrite Hp, Hf.
      cbn [negb]. now rewrite (with_directory_present _ _ Hd). }
    repeat split; [exact Hd | exact Hagain|].
    unfold bind. now rewrite Hagain.
  - assert (Hagain : Host.create_screenshots_directory w
                     = (Raise (Host.permission_denied (screenshots_dir w)), w)).
    { rewrite host_create_run. unfold dir_available. now rewrite Hp, Hro. }
    repeat split; [exact Hagain|].
    unfold bind. now rewrite Hagain.
  - pose proof (is_dir_with_directory (screenshots_dir w) w) as Hd.
    assert (Hagain :
      Host.create_screenshots_directory (with_directory (screenshots_dir w) w)
      = (Return (screenshots_dir w), with_directory (screenshots_dir w) w)).
    { rewrite host_create_run, dir_available_made.
      rewrite screenshots_dir_with_directory.
      now rewrite (with_directory_present _ _ Hd). }
    assert (Hfirst : Host.create_screenshots_directory w
                     = (Return (screenshots_dir w),
                        with_directory (screenshots_dir w) w)).
    { rewrite host_create_run. unfold dir_available. now rewrite Hp, Hro. }
    repeat split; try exact Hd; try exact Hagain.
    + unfold with_directory, set_files, set_paths, touch. world_simpl.
      now rewrite Hp.
    + unfold bind. rewrite Hfirst. exact Hagain.
Qed.
(** ** [update_readme_with_screenshots] *)

Lemma is_ascii_notice : is_ascii none_found_notice = false.
Proof. reflexivity. Qed.

Lemma is_ascii_generating (rest : string) :
  is_ascii (nl ++ "📝 Generating README markdown for " ++ rest) = false.
Proof. reflexivity. Qed.

(** What the Markdown generation does on any host: it ends with what
    [os.makedirs] raises, the world untouched; or it has made the directory
    and ends with the refusal of the terminal, nothing written; or it does
    what it does on the cooperating host. *)
Lemma host_update_readme_run (w : world) :
  Host.update_readme_with_screenshots w
  = if dir_available w
    then
      if ascii_terminal w
      then (Raise Host.cannot_encode, with_directory (screenshots_dir w) w)
      else update_readme_with_screenshots w
    else (Raise (if mem (screenshots_dir w) (paths w)
                 then Host.file_exists (screenshots_dir w)
                 else Host.permission_denied (screenshots_dir w)), w).
Proof.
  unfold Host.update_readme_with_screenshots,
    Script.update_readme_with_screenshots.
  change (Script.create_screenshots_directory Host.makedirs)
    with Host.create_screenshots_directory.
  unfold bind at 1. rewrite host_create_run.
  destruct (dir_available w); [|reflexivity].
  destruct (ascii_terminal w) eqn:Ht.
  - unfold with_directory, set_files, set_paths. world_simpl.
    unfold bind at 1, path_exists at 1. world_simpl.
    rewrite mem_touch.
    unfold bind at 1, bind at 1, listdir, ret at 1. world_simpl.
    destruct (sort (filter is_png
                      (children (screenshots_dir w)
                         (touch (screenshots_dir w) (paths w)))))
      as [|first rest].
    + apply host_print_refused; [exact Ht | apply is_ascii_notice].
    + apply bind_raise. apply host_print_refused; [exact Ht|].
      apply is_ascii_generating.
  - rewrite update_readme_run.
    unfold with_directory, set_files, set_paths. world_simpl.
    unfold bind at 1, path_exists at 1. world_simpl.
    rewrite mem_touch.
    unfold bind at 1, bind at 1, listdir, ret at 1. world_simpl.
    rewrite children_touch_dir. fold (png_files w).
    destruct (sort (png_files w)) as [|first rest] eqn:E.
    + now rewrite host_print_calm by exact Ht.
    + do 4 (erewrite bind_run
              by (rewrite host_print_calm by exact Ht; apply print_run);
            unfold set_stdout; world_simpl).
      rewrite host_print_calm by exact Ht.
      rewrite print_run, build_markdown_spec.
      unfold set_stdout. world_simpl. cbn [readme_output].
      repeat rewrite <- app_assoc. reflexivity.
Qed.

Lemma host_main_update_readme (a0 : string) (rest : list string) (w : world) :
  Host.main (a0 :: "--update-readme" :: rest) w
  = Host.update_readme_with_screenshots w.
Proof. reflexivity. Qed.

(** C9, the claim as stated fails: a run of [--update-readme] in which
    [os.makedirs] raises ends there, and the output directory does not exist
    afterwards. *)
Lemma update_readme_refused_leaves_no_directory :
  fst (Host.main ["screenshot_capture.py"; "--update-readme"] locked_world)
  = Raise (Host.permission_denied sample_dir) /\
  mem sample_dir
      (paths (snd (Host.main ["screenshot_capture.py"; "--update-readme"]
                     locked_world))) = false /\
  fst (Host.main ["screenshot_capture.py"; "--update-readme"] blocked_world)
  = Raise (Host.file_exists sample_dir) /\
  is_dir sample_dir
      (snd (Host.main ["screenshot_capture.py"; "--update-readme"]
              blocked_world)) = false.
Proof. vm_compute. repeat split. Qed.

(** C9, as amended: the Markdown mode changes the filesystem although it
    only lists.  [update_readme_with_screenshots] calls
    [create_screenshots_directory] before anything else.  When that call
    returns, the output directory is there after the run, however the run
    goes on: it was added when no path had its name, and the paths are
    unchanged otherwise; and the existence check that follows the call
    reads true.  When the call raises, the run ends with its exception and
    the world is as it was. *)
Theorem update_readme_creates_directory (w : world) :
  let dir := screenshots_dir w in
  let w' := snd (Host.main ["screenshot_capture.py"; "--update-readme"] w) in
  Host.main ["screenshot_capture.py"; "--update-readme"] w
  = Host.update_readme_with_screenshots w /\
  match Host.create_screenshots_directory w with
  | (Return _, w1) =>
      mem dir (paths w') = true /\
      is_dir dir w' = true /\
      (if mem dir (paths w)
       then paths w' = paths w
       else paths w' = (paths w ++ [dir])%list) /\
      fst (path_exists dir w1) = Return true
  | (Raise e, _) =>
      Host.update_readme_with_screenshots w = (Raise e, w)
  end.
Proof.
  cbv zeta. rewrite host_main_update_readme. split; [reflexivity|].
  rewrite host_create_run, host_update_readme_run.
  destruct (dir_available w) eqn:Ha; [|reflexivity].
  rewrite update_readme_run.
  pose proof (is_dir_with_directory (screenshots_dir w) w) as Hd.
  assert (Hp : mem (screenshots_dir w)
                 (paths (with_directory (screenshots_dir w) w)) = true).
  { unfold is_dir in Hd. now apply andb_true_iff in Hd. }
  assert (Hpaths :
    if mem (screenshots_dir w) (paths w)
    then paths (with_directory (screenshots_dir w) w) = paths w
    else paths (with_directory (screenshots_dir w) w)
         = (paths w ++ [screenshots_dir w])%list).
  { unfold with_directory, set_files, set_paths, touch. world_simpl.
    now destruct (mem (screenshots_dir w) (paths w)). }
  unfold path_exists. cbn [fst]. rewrite Hp.
  destruct (ascii_terminal w); cbn [snd].
  - repeat split; assumption.
  - repeat split; try assumption.
Qed.

(** ** The listing and the Markdown *)










(** ** [take_screenshot] *)

Lemma is_ascii_taking (rest : string) :
  is_ascii (nl ++ "📸 Taking screenshot: " ++ rest) = false.
Proof. reflexivity. Qed.

(** What one call of [take_screenshot] does on any host: it ends with what
    [os.makedirs] raises, the world untouched; or it has made the directory
    and read the clock and ends with the refusal of the terminal, before
    the tool is launched; or it does what it does on the cooperating
    host. *)
Lemma host_take_screenshot_run (filename_prefix : string)
    (description : option string) (w : world) :
  Host.take_screenshot filename_prefix description w
  = if dir_available w
    then
      if ascii_terminal w
      then (Raise Host.cannot_encode,
            set_ticks (S (ticks w)) (with_directory (screenshots_dir w) w))
      else take_screenshot filename_prefix description w
    else (Raise (if mem (screenshots_dir w) (paths w)
                 then Host.file_exists (screenshots_dir w)
                 else Host.permission_denied (screenshots_dir w)), w).
Proof.
  unfold Host.take_screenshot, Script.take_screenshot.
  change (Script.create_screenshots_directory Host.makedirs)
    with Host.create_screenshots_directory.
  unfold bind at 1. rewrite host_create_run.
  destruct (dir_available w); [|reflexivity].
  erewrite bind_run by apply now_run.
  destruct (ascii_terminal w) eqn:Ht.
  - apply bind_raise. apply host_print_refused; [exact Ht|].
    apply is_ascii_taking.
  - rewrite take_screenshot_run. cbv zeta.
    unfold with_directory, set_files, set_paths, set_ticks. world_simpl.
    erewrite bind_run by (rewrite host_print_calm by exact Ht; apply print_run).
    unfold set_stdout. world_simpl.
    erewrite bind_run by (rewrite host_print_calm by exact Ht; apply print_run).
    unfold set_stdout. world_simpl.
    unfold capture_name.
    set (filename := filename_prefix ++ "_"
                     ++ drop_last 3 (strftime (clock w (ticks w))) ++ ".png").
    set (filepath := join (screenshots_dir w) filename).
    unfold launched_world, capture_name. fold filename. fold filepath.
    unfold capture_argv.
    unfold try_except, bind at 1, subprocess_run, set_launched. world_simpl.
    destruct (capture_tool w (length (launched w))) as [rc present | e].
    + cbn [last]. destruct present; unfold set_files, set_paths; world_simpl;
        unfold bind at 1, path_exists at 1; world_simpl.
      * rewrite mem_touch, andb_true_r.
        destruct (rc =? 0)%Z;
          (erewrite bind_run
             by (rewrite host_print_calm by exact Ht; apply print_run));
          unfold ret, set_stdout;
          world_simpl; rewrite <- ?app_assoc; reflexivity.
      * rewrite mem_remove, andb_false_r.
        erewrite bind_run
          by (rewrite host_print_calm by exact Ht; apply print_run).
        unfold ret, set_stdout.
        world_simpl; rewrite <- ?app_assoc; reflexivity.
    + cbn [find_handler].
      destruct (issubclass (exn_cls e) CalledProcessError).
      * erewrite bind_run
          by (rewrite host_print_calm by exact Ht; apply print_run).
        unfold ret, set_stdout.
        world_simpl; rewrite <- ?app_assoc; reflexivity.
      * destruct (issubclass (exn_cls e) KeyboardInterrupt).
        -- erewrite bind_run
             by (rewrite host_print_calm by exact Ht; apply print_run).
           unfold ret, set_stdout.
           world_simpl; rewrite <- ?app_assoc; reflexivity.
        -- rewrite <- ?app_assoc. reflexivity.
Qed.

Lemma mem_touch_new (p q : string) (l : list string) :
  p <> q -> mem q (touch p l) = mem q l.
Proof.
  intros Hpq. unfold touch. destruct (mem p l); [reflexivity|].
  unfold mem. rewrite existsb_app. cbn [existsb].
  apply String.eqb_neq in Hpq. rewrite String.eqb_sym, Hpq.
  now rewrite !orb_false_r.
Qed.

(** On the cooperating host the output directory is there after the call,
    however it ends. *)
Lemma take_screenshot_leaves_directory (filename_prefix : string)
    (description : option string) (w : world) :
  is_dir (screenshots_dir w)
    (snd (take_screenshot filename_prefix description w)) = true.
Proof.
  rewrite take_screenshot_run. cbv zeta.
  pose proof (mem_touch (screenshots_dir w) (paths w)) as Hd.
  pose proof (mem_remove (screenshots_dir w) (files w)) as Hf.
  pose proof (capture_path_not_dir w filename_prefix (clock w (ticks w)))
    as Hne.
  unfold is_dir.
  destruct (capture_tool w (length (launched w))) as [rc present | e].
  - destruct present; [destruct (rc =? 0)%Z|]; cbn [snd];
      unfold launched_world; world_simpl;
      rewrite ?(mem_touch_new _ _ _ Hne), ?(mem_remove_other _ _ _ Hne), Hd, Hf;
      reflexivity.
  - destruct (issubclass (exn_cls e) CalledProcessError);
      [|destruct (issubclass (exn_cls e) KeyboardInterrupt)];
      cbn [snd]; unfold launched_world; world_simpl; now rewrite Hd, Hf.
Qed.


(** ** When the host cooperates

    On a host where [os.makedirs] returns on the output directory and the
    terminal takes every character, no operation refuses at any point of a
    run, and the script does what the functions at top level say. *)

Lemma cooperative_made (w : world) :
  ascii_terminal w = false ->
  cooperative (with_directory (screenshots_dir w) w) = true.
Proof.
  intros Ht. unfold cooperative. rewrite dir_available_made.
  change (ascii_terminal (with_directory (screenshots_dir w) w))
    with (ascii_terminal w).
  now rewrite Ht.
Qed.

Lemma cooperative_terminal (w : world) :
  cooperative w = true -> ascii_terminal w = false.
Proof.
  unfold cooperative. intros H. apply andb_true_iff in H.
  destruct H as [_ H]. now apply negb_true_iff in H.
Qed.

Lemma cooperative_directory (w : world) :
  cooperative w = true -> dir_available w = true.
Proof. unfold cooperative. intros H. now apply andb_true_iff in H. Qed.

Lemma agree_bind {A B} (m1 m2 : M A) (k1 k2 : A -> M B) :
  agree m1 m2 -> (forall a, agree (k1 a) (k2 a)) ->
  agree (bind m1 k1) (bind m2 k2).
Proof.
  intros H1 H2 w Hc. destruct (H1 w Hc) as [E P]. unfold bind. rewrite E.
  destruct (m2 w) as [[a|e] w']; cbn [snd] in P.
  - now apply H2.
  - now split.
Qed.

Lemma agree_ret {A} (a : A) : agree (ret a) (ret a).
Proof. intros w Hc. now split. Qed.

Lemma agree_print (s : string) : agree (Host.print s) (print s).
Proof.
  intros w Hc. split; [|exact Hc].
  apply host_print_calm. now apply cooperative_terminal.
Qed.

Lemma agree_input (prompt : string) : agree (input prompt) (input prompt).
Proof.
  intros w Hc. split; [reflexivity|]. unfold input.
  destruct (stdin w) as [|[line|] rest]; exact Hc.
Qed.

Lemma agree_sleep (n : nat) : agree (sleep n) (sleep n).
Proof. intros w Hc. now split. Qed.

Lemma agree_path_exists (p : string) : agree (path_exists p) (path_exists p).
Proof. intros w Hc. now split. Qed.

Lemma agree_listdir (d : string) : agree (listdir d) (listdir d).
Proof. intros w Hc. now split. Qed.

Lemma agree_create :
  agree Host.create_screenshots_directory create_screenshots_directory.
Proof.
  intros w Hc. rewrite host_create_run, (cooperative_directory _ Hc).
  rewrite create_screenshots_directory_run. split; [reflexivity|].
  cbn [snd]. apply cooperative_made. now apply cooperative_terminal.
Qed.

Lemma agree_take_screenshot (filename_prefix : string)
    (description : option string) :
  agree (Host.take_screenshot filename_prefix description)
        (take_screenshot filename_prefix description).
Proof.
  intros w Hc. pose proof (cooperative_terminal _ Hc) as Ht.
  rewrite host_take_screenshot_run, (cooperative_directory _ Hc), Ht.
  split; [reflexivity|].
  pose proof (take_screenshot_leaves_directory filename_prefix description w)
    as Hd.
  destruct (take_screenshot_world filename_prefix description w)
    as [fs [regular [said [Hw _]]]].
  rewrite Hw in Hd |- *. unfold cooperative, dir_available.
  unfold is_dir in Hd. apply andb_true_iff in Hd. destruct Hd as [Hp Hf].
  change (screenshots_dir
            (launched_world filename_prefix description w fs regular said))
    with (screenshots_dir w).
  rewrite Hp, Hf.
  change (ascii_terminal
            (launched_world filename_prefix description w fs regular said))
    with (ascii_terminal w).
  now rewrite Ht.
Qed.

Lemma agree_capture_step (total i : nat) (item : string * string)
    (screenshots : list capture_record) :
  agree (Script.capture_step Host.makedirs Host.print total i item screenshots)
        (capture_step total i item screenshots).
Proof.
  destruct item as [prefix description].
  unfold capture_step, Script.capture_step.
  apply agree_bind; [apply agree_print | intros _].
  apply agree_bind; [apply agree_input | intros _].
  apply agree_bind; [apply agree_take_screenshot | intros filepath].
  apply agree_bind.
  { destruct filepath as [p|]; [destruct (p =? "")|];
      try apply agree_ret;
      (apply agree_bind; [apply agree_print | intros _; apply agree_ret]). }
  intros screenshots'.
  apply agree_bind; [|intros _; apply agree_ret].
  destruct (i <? total)%nat; [|apply agree_ret].
  apply agree_bind; [apply agree_print | intros _; apply agree_sleep].
Qed.

Lemma agree_sequence_loop (items : list (string * string)) :
  forall (total i : nat) (screenshots : list capture_record),
    agree (Script.sequence_loop Host.makedirs Host.print total i items
             screenshots)
          (sequence_loop total i items screenshots).
Proof.
  induction items as [|item rest IH]; intros total i screenshots.
  - apply agree_ret.
  - unfold sequence_loop. cbn [Script.sequence_loop].
    apply agree_bind; [apply agree_capture_step | intros s'; apply IH].
Qed.

Lemma agree_print_captured (screenshots : list capture_record) :
  agree (Script.print_captured Host.print screenshots)
        (print_captured screenshots).
Proof.
  induction screenshots as [|[[prefix filepath] description] rest IH].
  - apply agree_ret.
  - unfold print_captured. cbn [Script.print_captured].
    apply agree_bind; [apply agree_print | intros _; exact IH].
Qed.

Lemma agree_guided :
  agree Host.guided_screenshot_sequence guided_screenshot_sequence.
Proof.
  unfold Host.guided_screenshot_sequence, guided_screenshot_sequence,
    Script.guided_screenshot_sequence.
  do 5 (apply agree_bind; [apply agree_print | intros _]).
  apply agree_bind; [apply agree_sequence_loop | intros screenshots].
  apply agree_bind; [apply agree_print | intros _].
  apply agree_bind; [apply agree_create | intros dir].
  apply agree_bind; [apply agree_print | intros _].
  apply agree_bind; [|intros _; apply agree_ret].
  destruct screenshots as [|r rest]; [apply agree_ret|].
  apply agree_bind; [apply agree_print | intros _].
  apply agree_print_captured.
Qed.

Lemma agree_update_readme :
  agree Host.update_readme_with_screenshots update_readme_with_screenshots.
Proof.
  unfold Host.update_readme_with_screenshots, update_readme_with_screenshots,
    Script.update_readme_with_screenshots.
  apply agree_bind; [apply agree_create | intros dir].
  apply agree_bind; [apply agree_path_exists | intros there].
  apply agree_bind.
  { destruct there; [|apply agree_ret].
    apply agree_bind; [apply agree_listdir | intros entries; apply agree_ret]. }
  intros listed. destruct (sort listed) as [|first rest];
    [apply agree_print|].
  do 4 (apply agree_bind; [apply agree_print | intros _]).
  apply agree_print.
Qed.

Lemma agree_print_all (lines : list string) :
  agree (Script.print_all Host.print lines) (print_all lines).
Proof.
  induction lines as [|l lines IH].
  - apply agree_ret.
  - unfold print_all. cbn [Script.print_all].
    apply agree_bind; [apply agree_print | intros _; exact IH].
Qed.

Lemma agree_main (argv : list string) : agree (Host.main argv) (main argv).
Proof.
  unfold Host.main, main, Script.main.
  assert (Hsingle :
    agree (bind (Script.take_screenshot_default Host.makedirs Host.print)
                (fun _ => ret tt))
          (bind (Script.take_screenshot_default makedirs print)
                (fun _ => ret tt))).
  { apply agree_bind; [apply agree_take_screenshot | intros _; apply agree_ret]. }
  destruct argv as [|a0 [|arg rest]]; try exact Hsingle.
  destruct (arg =? "--sequence").
  { apply agree_bind; [apply agree_guided | intros _; apply agree_ret]. }
  destruct (arg =? "--update-readme"); [apply agree_update_readme|].
  destruct (arg =? "--help"); [apply agree_print_all|].
  apply agree_bind; [apply agree_print | intros _; apply agree_print].
Qed.

(** On a cooperating host the program ends as the functions at top level
    say, with the same exit status, and leaves the same world. *)
Lemma host_run_cooperative (argv : list string) (w : world) :
  cooperative w = true ->
  Host.main argv w = main argv w /\
  Host.run_script argv w = run_script argv w.
Proof.
  intros Hc. destruct (agree_main argv w Hc) as [E _].
  split; [exact E|].
  unfold Host.run_script, run_script, Script.run_script.
  change (Script.main Host.makedirs Host.print argv w) with (Host.main argv w).
  change (Script.main makedirs print argv w) with (main argv w).
  now rewrite E.
Qed.
